(** * EduHaven SFU signalling: a shallow embedding of
      [Server/SFU/mediaRouter.js] (class [MediaRouter]) and of the Socket.IO
      handlers of [handleSFUOperations] (sfuHandlers.js).

    Conventions of the embedding.
    - A JS [Map] is an insertion-ordered association list ([JsMap]); a JS
      [Set] is an insertion-ordered duplicate-free list ([JsSet]).
    - Handles of mediasoup objects are represented by the id of the object.
    - mediasoup is an external library: what each of its calls answers is an
      input of the step (record [Engine]); every call made is appended to the
      [engine] trace of the media router.
    - Socket.IO is an external library: [Adapter] models its room table;
      every event delivered to a socket is appended to the [sent] trace.
    - Each handler runs to completion before the next one starts. *)

From Stdlib Require Import List String Bool Arith Lia.
Import ListNotations.
Open Scope string_scope.
Open Scope list_scope.

(** ** JS containers *)

Module JsMap.
Section WithValue.
Variable V : Type.

Definition t := list (string * V).

Definition empty : t := [].

(** [map.get(k)]: [None] stands for [undefined]. *)
Fixpoint get (k : string) (m : t) : option V :=
    match m with
    | [] => None
    | (k', v) :: m' => if String.eqb k k' then Some v else get k m'
    end.

Definition has (k : string) (m : t) : bool :=
    match get k m with Some _ => true | None => false end.

(** [map.set(k, v)]: an existing key keeps its position, a new one is
      appended. *)
Fixpoint set (k : string) (v : V) (m : t) : t :=
    match m with
    | [] => [(k, v)]
    | (k', v') :: m' =>
        if String.eqb k k' then (k, v) :: m' else (k', v') :: set k v m'
    end.

(** [map.delete(k)]. *)
Definition delete (k : string) (m : t) : t :=
    filter (fun kv => negb (String.eqb k (fst kv))) m.

Definition keys (m : t) : list string := map fst m.
End WithValue.

Arguments empty {V}.
Arguments get {V} k m.
Arguments has {V} k m.
Arguments set {V} k v m.
Arguments delete {V} k m.
Arguments keys {V} m.
End JsMap.

Module JsSet.
Definition t := list string.

Definition has (x : string) (s : t) : bool := existsb (String.eqb x) s.

Definition add (x : string) (s : t) : t :=
  if has x s then s else (s ++ [x])%list.

Definition delete (x : string) (s : t) : t :=
  filter (fun y => negb (String.eqb x y)) s.

Definition size (s : t) : nat := List.length s.
End JsSet.

(** ** Data model *)

(** Opaque JSON payloads (DTLS, ICE and RTP parameters, capabilities). *)
Definition Json := string.

(** The router object of mediasoup: its id and its [rtpCapabilities]. *)
Record Router := mkRouter {
  router_id : string;
  rtpCapabilities : Json
}.

(** Values of [this.transports]. *)
Record TransportInfo := mkTransportInfo {
  t_transport : string;
  t_peerId : string;
  t_roomId : string;
  t_direction : string
}.

(** Values of [this.producers]. *)
Record ProducerInfo := mkProducerInfo {
  p_producer : string;
  p_peerId : string;
  p_roomId : string;
  p_kind : string
}.

(** Values of [this.consumers]. *)
Record ConsumerInfo := mkConsumerInfo {
  c_consumer : string;
  c_peerId : string;
  c_roomId : string;
  c_producerId : string
}.

(** Values of [this.rooms]. *)
Record RoomInfo := mkRoomInfo {
  room_id : string;
  room_router : Router;
  room_peers : JsSet.t;
  createdAt : nat
}.

(** Calls made to mediasoup objects, in the order they are made. *)
Inductive EngineCall :=
| CreateWorker
| WorkerCreateRouter (worker : string)
| RouterCreateWebRtcTransport (router : string)
| TransportConnect (transport : string) (dtlsParameters : Json)
| TransportProduce (transport kind : string) (rtpParameters : Json)
| RouterCanConsume (router producerId : string)
| TransportConsume (transport producerId : string)
| ConsumerResume (consumer : string)
| ConsumerPause (consumer : string)
| ProducerClose (producer : string)
| ConsumerClose (consumer : string)
| TransportClose (transport : string)
| RouterClose (router : string)
| WorkerClose (worker : string).

(** The fields of [MediaRouter]; [listeners] are the sockets whose
    [newProducer] listener is registered on the emitter. *)
Record MediaRouter := mkMediaRouter {
  workers : list string;
  routers : JsMap.t Router;
  transports : JsMap.t TransportInfo;
  producers : JsMap.t ProducerInfo;
  consumers : JsMap.t ConsumerInfo;
  peers : JsMap.t unit;
  rooms : JsMap.t RoomInfo;
  listeners : list string;
  engine : list EngineCall
}.

(** Entries of [existingProducers]. *)
Record ProducerAd := mkProducerAd {
  ad_id : string;
  ad_peerId : string;
  ad_kind : string
}.

(** What [createWebRtcTransport] returns. *)
Record TransportParams := mkTransportParams {
  tp_id : string;
  iceParameters : Json;
  iceCandidates : Json;
  dtlsParameters : Json
}.

(** What [createConsumer] returns. *)
Record ConsumerParams := mkConsumerParams {
  cp_id : string;
  cp_producerId : string;
  cp_kind : string;
  cp_rtpParameters : Json
}.

(** Events the server emits to a socket. [ProducerClosed] carries the
    optional [peerId] field: the fan-out has it, the reply has not. *)
Inductive ServerEvent :=
| VideoRoomJoined (routerCapabilities : Json) (existingProducers : list ProducerAd)
| NewPeerJoined (peerId : string)
| VideoRoomError (error details : string)
| VideoRoomLeft (roomId : string)
| PeerLeft (peerId : string)
| TransportCreated (direction : option string) (transportParams : TransportParams)
| TransportError (error details : string)
| TransportConnected (transportId : string)
| ProducerCreated (id kind : string)
| NewProducerAvailable (peerId producerId kind : string)
| ProducerError (error details : string)
| ConsumerCreated (consumerInfo : ConsumerParams)
| ConsumerError (error details : string)
| ConsumerResumed (consumerId : string)
| ConsumerPaused (consumerId : string)
| ProducerClosed (peerId : option string) (producerId : string).

(** A delivery: the receiving socket and the event. *)
Definition Delivery := (string * ServerEvent)%type.

(** Socket.IO's room table: room name -> set of socket ids. *)
Definition Adapter := JsMap.t JsSet.t.

Record Server := mkServer {
  media : MediaRouter;
  adapter : Adapter;
  sent : list Delivery
}.

(** Events a socket sends to the server. *)
Inductive ClientEvent :=
| Connection
| JoinVideoRoom (roomId : string)
| LeaveVideoRoom (roomId : string)
| CreateTransport (roomId : string) (direction : option string)
| ConnectTransport (transportId : string) (dtls : Json)
| CreateProducer (transportId kind : string) (rtpParameters : Json) (roomId : string)
| CreateConsumer (transportId producerId : string) (rtpCaps : Json)
| ResumeConsumer (consumerId : string)
| PauseConsumer (consumerId : string)
| CloseProducer (producerId roomId : string)
| Disconnect.

(** ** The answers of mediasoup *)

Inductive result (A : Type) : Type :=
| Ok (a : A)
| Throw (message : string).
Arguments Ok {A} a.
Arguments Throw {A} message.

(** What mediasoup and the clock answer during one handler. *)
Record Engine := mkEngine {
  createWorker : result string;
  createRouter : result Router;
  now : nat;
  createWebRtcTransport_ : result TransportParams;
  connect : result unit;
  produce : result string;
  canConsume : bool;
  consume : result ConsumerParams;
  resume : result unit;
  pause : result unit
}.

(** ** State updates *)

Definition with_workers (f : list string -> list string) (m : MediaRouter) : MediaRouter :=
  mkMediaRouter (f (workers m)) (routers m) (transports m) (producers m)
    (consumers m) (peers m) (rooms m) (listeners m) (engine m).

Definition with_routers (f : JsMap.t Router -> JsMap.t Router) (m : MediaRouter) : MediaRouter :=
  mkMediaRouter (workers m) (f (routers m)) (transports m) (producers m)
    (consumers m) (peers m) (rooms m) (listeners m) (engine m).

Definition with_transports (f : JsMap.t TransportInfo -> JsMap.t TransportInfo)
    (m : MediaRouter) : MediaRouter :=
  mkMediaRouter (workers m) (routers m) (f (transports m)) (producers m)
    (consumers m) (peers m) (rooms m) (listeners m) (engine m).

Definition with_producers (f : JsMap.t ProducerInfo -> JsMap.t ProducerInfo)
    (m : MediaRouter) : MediaRouter :=
  mkMediaRouter (workers m) (routers m) (transports m) (f (producers m))
    (consumers m) (peers m) (rooms m) (listeners m) (engine m).

Definition with_consumers (f : JsMap.t ConsumerInfo -> JsMap.t ConsumerInfo)
    (m : MediaRouter) : MediaRouter :=
  mkMediaRouter (workers m) (routers m) (transports m) (producers m)
    (f (consumers m)) (peers m) (rooms m) (listeners m) (engine m).

Definition with_rooms (f : JsMap.t RoomInfo -> JsMap.t RoomInfo) (m : MediaRouter) : MediaRouter :=
  mkMediaRouter (workers m) (routers m) (transports m) (producers m)
    (consumers m) (peers m) (f (rooms m)) (listeners m) (engine m).

Definition with_listeners (f : list string -> list string) (m : MediaRouter) : MediaRouter :=
  mkMediaRouter (workers m) (routers m) (transports m) (producers m)
    (consumers m) (peers m) (rooms m) (f (listeners m)) (engine m).

(** A call to a mediasoup object is recorded at the end of the trace. *)
Definition log (c : EngineCall) (m : MediaRouter) : MediaRouter :=
  mkMediaRouter (workers m) (routers m) (transports m) (producers m)
    (consumers m) (peers m) (rooms m) (listeners m) (engine m ++ [c]).

Definition on_media (f : MediaRouter -> MediaRouter) (s : Server) : Server :=
  mkServer (f (media s)) (adapter s) (sent s).

Definition on_adapter (f : Adapter -> Adapter) (s : Server) : Server :=
  mkServer (media s) (f (adapter s)) (sent s).

Definition deliver (ds : list Delivery) (s : Server) : Server :=
  mkServer (media s) (adapter s) (sent s ++ ds).

(** The six registry tables of the media router. *)
Definition tables (m : MediaRouter) :=
  (routers m, transports m, producers m, consumers m, peers m, rooms m).

(** ** Socket.IO: rooms, [socket.emit] and [socket.to(room).emit] *)

(** [socket.join(room)]. *)
Definition adapter_join (sid room : string) (a : Adapter) : Adapter :=
  match JsMap.get room a with
  | None => JsMap.set room [sid] a
  | Some members => JsMap.set room (JsSet.add sid members) a
  end.

(** [socket.leave(room)]: a room that becomes empty is dropped. *)
Definition adapter_leave (sid room : string) (a : Adapter) : Adapter :=
  match JsMap.get room a with
  | None => a
  | Some members =>
      let members' := JsSet.delete sid members in
      if (JsSet.size members' =? 0)%nat then JsMap.delete room a
      else JsMap.set room members' a
  end.

(** [socket.rooms]. *)
Definition socket_rooms (sid : string) (a : Adapter) : list string :=
  map fst (filter (fun rm => JsSet.has sid (snd rm)) a).

(** The sockets [socket.to(room)] reaches: the members of [room] other than
    the sending socket. *)
Definition recipients (sid room : string) (a : Adapter) : list string :=
  match JsMap.get room a with
  | None => []
  | Some members => filter (fun x => negb (String.eqb x sid)) members
  end.

(** [socket.emit(ev)]. *)
Definition emit (sid : string) (ev : ServerEvent) (s : Server) : Server :=
  deliver [(sid, ev)] s.

(** [socket.to(room).emit(ev)]. *)
Definition to_emit (sid room : string) (ev : ServerEvent) (s : Server) : Server :=
  deliver (map (fun r => (r, ev)) (recipients sid room (adapter s))) s.

(** The template literal [`video-${roomId}`]. *)
Definition video_room (roomId : string) : string := ("video-" ++ roomId)%string.

(** ** A state and exception monad for the async methods *)

Definition M (A : Type) : Type := Server -> Server * result A.

Definition ret {A : Type} (a : A) : M A := fun s => (s, Ok a).

Definition throw {A : Type} (message : string) : M A := fun s => (s, Throw message).

Definition bind {A B : Type} (m : M A) (k : A -> M B) : M B :=
  fun s =>
    match m s with
    | (s', Ok a) => k a s'
    | (s', Throw message) => (s', Throw message)
    end.

Notation "x <- m ;; k" := (bind m (fun x => k))
  (at level 61, m at next level, right associativity).
Notation "m ;;; k" := (bind m (fun _ => k))
  (at level 61, right associativity).

Definition modify (f : Server -> Server) : M unit := fun s => (f s, Ok tt).

Definition gets {A : Type} (f : Server -> A) : M A := fun s => (s, Ok (f s)).

(** [await obj.method(...)]: the call is recorded, mediasoup's answer is its
    outcome. *)
Definition await {A : Type} (c : EngineCall) (answer : result A) : M A :=
  fun s => (on_media (log c) s, answer).

(** [try { body } catch (error) { handler(error.message) }]. *)
Definition try_catch (body : M unit) (handler : string -> Server -> Server)
    (s : Server) : Server :=
  match body s with
  | (s', Ok _) => s'
  | (s', Throw message) => handler message s'
  end.

(** [for (const [k, v] of map) body(k, v)], over the entries the map has
    when the loop starts. The loops of the source delete at most the entry
    they are visiting, so no entry is skipped or visited twice. *)
Definition for_of {V S : Type} (entries : JsMap.t V) (body : string -> V -> S -> S)
    (s : S) : S :=
  fold_left (fun acc kv => body (fst kv) (snd kv) acc) entries s.

(** ** The methods of [MediaRouter] *)

(** [initialize()]: creates one worker and pushes it on [this.workers]; a
    failure is rethrown. *)
Definition initialize (e : Engine) : M bool :=
  worker <- await CreateWorker (createWorker e) ;;
  modify (on_media (with_workers (fun ws => ws ++ [worker]))) ;;;
  ret true.

(** [getOrCreateRouter(roomId)]. With no worker, [this.workers[0]] is
    [undefined] and the call on it raises a [TypeError]. *)
Definition getOrCreateRouter (e : Engine) (roomId : string) : M Router :=
  fun s =>
    if JsMap.has roomId (routers (media s)) then
      match JsMap.get roomId (routers (media s)) with
      | Some router => (s, Ok router)
      | None => (s, Throw "unreachable")
      end
    else
      match workers (media s) with
      | [] => (s, Throw "Cannot read properties of undefined (reading 'createRouter')")
      | worker :: _ =>
          (router <- await (WorkerCreateRouter worker) (createRouter e) ;;
           modify (on_media (with_routers (JsMap.set roomId router))) ;;;
           modify (on_media (with_rooms
             (JsMap.set roomId (mkRoomInfo roomId router [] (now e))))) ;;;
           ret router) s
      end.

(** [createWebRtcTransport(roomId, peerId, direction = 'send')]. The
    listeners installed on the transport react to notifications of the
    engine and touch no table. *)
Definition createWebRtcTransport (e : Engine) (roomId peerId : string)
    (direction : option string) : M TransportParams :=
  let direction := match direction with Some d => d | None => "send" end in
  router <- getOrCreateRouter e roomId ;;
  transport <- await (RouterCreateWebRtcTransport (router_id router))
                     (createWebRtcTransport_ e) ;;
  modify (on_media (with_transports
    (JsMap.set (tp_id transport)
       (mkTransportInfo (tp_id transport) peerId roomId direction)))) ;;;
  ret transport.

(** [connectTransport(transportId, dtlsParameters)]. *)
Definition connectTransport (e : Engine) (transportId : string) (dtls : Json) : M unit :=
  fun s =>
    match JsMap.get transportId (transports (media s)) with
    | None => (s, Throw ("Transport " ++ transportId ++ " not found")%string)
    | Some transportInfo =>
        await (TransportConnect (t_transport transportInfo) dtls) (connect e) s
    end.

(** [this.emit('newProducer', data)]: every registered listener runs
    [socket.to(`video-${roomId}`).emit('new-producer-available', ...)] with
    its own socket. *)
Definition emit_newProducer (roomId peerId producerId kind : string) (s : Server) : Server :=
  fold_left
    (fun acc socket =>
       to_emit socket (video_room roomId)
         (NewProducerAvailable peerId producerId kind) acc)
    (listeners (media s)) s.

(** [room.peers.add(peerId)] when the room exists. *)
Definition room_add_peer (roomId peerId : string) (m : MediaRouter) : MediaRouter :=
  match JsMap.get roomId (rooms m) with
  | None => m
  | Some room =>
      with_rooms
        (JsMap.set roomId
           (mkRoomInfo (room_id room) (room_router room)
              (JsSet.add peerId (room_peers room)) (createdAt room))) m
  end.

(** [createProducer(transportId, rtpParameters, kind)]. *)
Definition createProducer (e : Engine) (transportId : string) (rtpParameters : Json)
    (kind : string) : M string :=
  fun s =>
    match JsMap.get transportId (transports (media s)) with
    | None => (s, Throw ("Transport " ++ transportId ++ " not found")%string)
    | Some transportInfo =>
        (producer <- await (TransportProduce (t_transport transportInfo) kind rtpParameters)
                           (produce e) ;;
         modify (on_media (with_producers
           (JsMap.set producer
              (mkProducerInfo producer (t_peerId transportInfo)
                 (t_roomId transportInfo) kind)))) ;;;
         modify (on_media (room_add_peer (t_roomId transportInfo) (t_peerId transportInfo))) ;;;
         modify (emit_newProducer (t_roomId transportInfo) (t_peerId transportInfo)
                   producer kind) ;;;
         ret producer) s
    end.

(** [createConsumer(transportId, producerId, rtpCapabilities)]. *)
Definition createConsumer (e : Engine) (transportId producerId : string)
    (rtpCaps : Json) : M ConsumerParams :=
  fun s =>
    match JsMap.get transportId (transports (media s)) with
    | None => (s, Throw ("Transport " ++ transportId ++ " not found")%string)
    | Some transportInfo =>
        match JsMap.get producerId (producers (media s)) with
        | None => (s, Throw ("Producer " ++ producerId ++ " not found")%string)
        | Some _ =>
            (router <- getOrCreateRouter e (t_roomId transportInfo) ;;
             can <- await (RouterCanConsume (router_id router) producerId)
                          (Ok (canConsume e)) ;;
             if negb can then throw "Cannot consume producer"
             else
               consumer <- await (TransportConsume (t_transport transportInfo) producerId)
                                 (consume e) ;;
               modify (on_media (with_consumers
                 (JsMap.set (cp_id consumer)
                    (mkConsumerInfo (cp_id consumer) (t_peerId transportInfo)
                       (t_roomId transportInfo) producerId)))) ;;;
               ret (mkConsumerParams (cp_id consumer) producerId (cp_kind consumer)
                      (cp_rtpParameters consumer))) s
        end
    end.

(** [resumeConsumer(consumerId)]. *)
Definition resumeConsumer (e : Engine) (consumerId : string) : M unit :=
  fun s =>
    match JsMap.get consumerId (consumers (media s)) with
    | None => (s, Throw ("Consumer " ++ consumerId ++ " not found")%string)
    | Some consumerInfo => await (ConsumerResume (c_consumer consumerInfo)) (resume e) s
    end.

(** [pauseConsumer(consumerId)]. *)
Definition pauseConsumer (e : Engine) (consumerId : string) : M unit :=
  fun s =>
    match JsMap.get consumerId (consumers (media s)) with
    | None => (s, Throw ("Consumer " ++ consumerId ++ " not found")%string)
    | Some consumerInfo => await (ConsumerPause (c_consumer consumerInfo)) (pause e) s
    end.

(** [closeProducer(producerId)]: returns at once when the producer is
    unknown; raises nothing. *)
Definition closeProducer (producerId : string) (m : MediaRouter) : MediaRouter :=
  match JsMap.get producerId (producers m) with
  | None => m
  | Some producerInfo =>
      let m1 := log (ProducerClose (p_producer producerInfo)) m in
      let m2 := with_producers (JsMap.delete producerId) m1 in
      for_of (consumers m2)
        (fun consumerId consumerInfo acc =>
           if String.eqb (c_producerId consumerInfo) producerId then
             with_consumers (JsMap.delete consumerId)
               (log (ConsumerClose (c_consumer consumerInfo)) acc)
           else acc)
        m2
  end.

(** [getRouterCapabilities(roomId)]. *)
Definition getRouterCapabilities (e : Engine) (roomId : string) : M Json :=
  router <- getOrCreateRouter e roomId ;;
  ret (rtpCapabilities router).

(** [getRoomProducers(roomId, excludePeerId = null)]. *)
Definition getRoomProducers (roomId : string) (excludePeerId : option string)
    (m : MediaRouter) : list ProducerAd :=
  map (fun kv => mkProducerAd (fst kv) (p_peerId (snd kv)) (p_kind (snd kv)))
    (filter
       (fun kv =>
          String.eqb (p_roomId (snd kv)) roomId &&
          negb (match excludePeerId with
                | Some x => String.eqb (p_peerId (snd kv)) x
                | None => false
                end))
       (producers m)).

(** The last step of [leavePeer]: the peer leaves [room.peers]; a room left
    with no peer has its router closed and is dropped. *)
Definition room_remove_peer (peerId roomId : string) (m : MediaRouter) : MediaRouter :=
  match JsMap.get roomId (rooms m) with
  | None => m
  | Some room =>
      let peers' := JsSet.delete peerId (room_peers room) in
      let m1 :=
        with_rooms
          (JsMap.set roomId
             (mkRoomInfo (room_id room) (room_router room) peers' (createdAt room))) m in
      if (JsSet.size peers' =? 0)%nat then
        with_rooms (JsMap.delete roomId)
          (with_routers (JsMap.delete roomId)
             (log (RouterClose (router_id (room_router room))) m1))
      else m1
  end.

(** The first loop of [leavePeer]: the transports of the peer in the room
    are closed and deleted. *)
Definition leave_transports (peerId roomId : string) (m : MediaRouter) : MediaRouter :=
  for_of (transports m)
    (fun transportId transportInfo acc =>
       if String.eqb (t_peerId transportInfo) peerId &&
          String.eqb (t_roomId transportInfo) roomId then
         with_transports (JsMap.delete transportId)
           (log (TransportClose (t_transport transportInfo)) acc)
       else acc)
    m.

(** The second loop: [closeProducer] on the producers of the peer in the
    room. *)
Definition leave_producers (peerId roomId : string) (m : MediaRouter) : MediaRouter :=
  for_of (producers m)
    (fun producerId producerInfo acc =>
       if String.eqb (p_peerId producerInfo) peerId &&
          String.eqb (p_roomId producerInfo) roomId then
         closeProducer producerId acc
       else acc)
    m.

(** The third loop: the consumers of the peer in the room are closed and
    deleted. *)
Definition leave_consumers (peerId roomId : string) (m : MediaRouter) : MediaRouter :=
  for_of (consumers m)
    (fun consumerId consumerInfo acc =>
       if String.eqb (c_peerId consumerInfo) peerId &&
          String.eqb (c_roomId consumerInfo) roomId then
         with_consumers (JsMap.delete consumerId)
           (log (ConsumerClose (c_consumer consumerInfo)) acc)
       else acc)
    m.

(** [leavePeer(peerId, roomId)]: the three loops, then the room. Nothing
    in its body raises, so its [catch] is never entered. *)
Definition leavePeer (peerId roomId : string) (m : MediaRouter) : MediaRouter :=
  room_remove_peer peerId roomId
    (leave_consumers peerId roomId
       (leave_producers peerId roomId
          (leave_transports peerId roomId m))).

(** [close()]. *)
Definition close (m : MediaRouter) : MediaRouter :=
  let m1 := fold_left (fun acc worker => log (WorkerClose worker) acc) (workers m) m in
  mkMediaRouter [] JsMap.empty JsMap.empty JsMap.empty JsMap.empty JsMap.empty
    JsMap.empty (listeners m1) (engine m1).

(** ** The Socket.IO handlers of [handleSFUOperations] *)

(** ['join-video-room']. *)
Definition on_join_video_room (e : Engine) (socket roomId : string) : Server -> Server :=
  let peerId := socket in
  try_catch
    (modify (on_adapter (adapter_join socket (video_room roomId))) ;;;
     routerCapabilities <- getRouterCapabilities e roomId ;;
     existingProducers <- gets (fun s => getRoomProducers roomId (Some peerId) (media s)) ;;
     modify (emit socket (VideoRoomJoined routerCapabilities existingProducers)) ;;;
     modify (to_emit socket (video_room roomId) (NewPeerJoined peerId)))
    (fun message => emit socket (VideoRoomError "Failed to join video room" message)).

(** ['leave-video-room']. *)
Definition on_leave_video_room (socket roomId : string) : Server -> Server :=
  let peerId := socket in
  try_catch
    (modify (on_adapter (adapter_leave socket (video_room roomId))) ;;;
     modify (on_media (leavePeer peerId roomId)) ;;;
     modify (to_emit socket (video_room roomId) (PeerLeft peerId)) ;;;
     modify (emit socket (VideoRoomLeft roomId)))
    (fun message => emit socket (VideoRoomError "Failed to leave video room" message)).

(** ['create-transport']. *)
Definition on_create_transport (e : Engine) (socket roomId : string)
    (direction : option string) : Server -> Server :=
  let peerId := socket in
  try_catch
    (transportParams <- createWebRtcTransport e roomId peerId direction ;;
     modify (emit socket (TransportCreated direction transportParams)))
    (fun message => emit socket (TransportError "Failed to create transport" message)).

(** ['connect-transport']. *)
Definition on_connect_transport (e : Engine) (socket transportId : string)
    (dtls : Json) : Server -> Server :=
  try_catch
    (connectTransport e transportId dtls ;;;
     modify (emit socket (TransportConnected transportId)))
    (fun message => emit socket (TransportError "Failed to connect transport" message)).

(** ['create-producer']. *)
Definition on_create_producer (e : Engine) (socket transportId kind : string)
    (rtpParameters : Json) (roomId : string) : Server -> Server :=
  let peerId := socket in
  try_catch
    (producerId <- createProducer e transportId rtpParameters kind ;;
     modify (emit socket (ProducerCreated producerId kind)) ;;;
     modify (to_emit socket (video_room roomId)
               (NewProducerAvailable peerId producerId kind)))
    (fun message => emit socket (ProducerError "Failed to create producer" message)).

(** ['create-consumer']. *)
Definition on_create_consumer (e : Engine) (socket transportId producerId : string)
    (rtpCaps : Json) : Server -> Server :=
  try_catch
    (consumerInfo <- createConsumer e transportId producerId rtpCaps ;;
     modify (emit socket (ConsumerCreated consumerInfo)))
    (fun message => emit socket (ConsumerError "Failed to create consumer" message)).

(** ['resume-consumer']. *)
Definition on_resume_consumer (e : Engine) (socket consumerId : string) : Server -> Server :=
  try_catch
    (resumeConsumer e consumerId ;;;
     modify (emit socket (ConsumerResumed consumerId)))
    (fun message => emit socket (ConsumerError "Failed to resume consumer" message)).

(** ['pause-consumer']. *)
Definition on_pause_consumer (e : Engine) (socket consumerId : string) : Server -> Server :=
  try_catch
    (pauseConsumer e consumerId ;;;
     modify (emit socket (ConsumerPaused consumerId)))
    (fun message => emit socket (ConsumerError "Failed to pause consumer" message)).

(** ['close-producer']. *)
Definition on_close_producer (socket producerId roomId : string) : Server -> Server :=
  let peerId := socket in
  try_catch
    (modify (on_media (closeProducer producerId)) ;;;
     modify (to_emit socket (video_room roomId) (ProducerClosed (Some peerId) producerId)) ;;;
     modify (emit socket (ProducerClosed None producerId)))
    (fun message => emit socket (ProducerError "Failed to close producer" message)).

(** [str.replace(pattern, replacement)] with a string pattern: the first
    occurrence only. *)
Fixpoint replace_first (pattern replacement s : string) : string :=
  if String.prefix pattern s then
    (replacement ++
     String.substring (String.length pattern)
       (String.length s - String.length pattern) s)%string
  else
    match s with
    | EmptyString => EmptyString
    | String c s' => String c (replace_first pattern replacement s')
    end.

(** The rooms the ['disconnect'] handler cleans up, out of [socket.rooms]. *)
Definition video_rooms_of (socket : string) (socketRooms : list string) : list string :=
  filter (fun room => String.prefix "video-" room && negb (String.eqb room socket))
    socketRooms.

(** The body of the ['disconnect'] handler, for the value [socket.rooms]
    has when the handler runs. *)
Definition disconnect_cleanup (socket : string) (socketRooms : list string)
    (s : Server) : Server :=
  let peerId := socket in
  fold_left
    (fun acc socketRoom =>
       let roomId := replace_first "video-" "" socketRoom in
       to_emit socket socketRoom (PeerLeft peerId)
         (on_media (leavePeer peerId roomId) acc))
    (video_rooms_of socket socketRooms) s.

(** Socket.IO takes a closing socket out of every room it is in; a room
    left with no socket is dropped. *)
Definition adapter_leave_all (sid : string) (a : Adapter) : Adapter :=
  flat_map
    (fun rm =>
       if JsSet.has sid (snd rm) then
         let members' := JsSet.delete sid (snd rm) in
         if (JsSet.size members' =? 0)%nat then [] else [(fst rm, members')]
       else [rm])
    a.

(** ['disconnect']: Socket.IO fires the event once the socket has left all
    its rooms, so the handler reads [socket.rooms] after that. *)
Definition on_disconnect (socket : string) (s : Server) : Server :=
  let closed := on_adapter (adapter_leave_all socket) s in
  disconnect_cleanup socket (socket_rooms socket (adapter closed)) closed.

(** [handleSFUOperations(socket, io, mediaRouter)], run when a socket
    connects: Socket.IO has put the socket in the room named by its id, and
    the [newProducer] listener of the socket is registered. *)
Definition handleSFUOperations (socket : string) (s : Server) : Server :=
  on_media (with_listeners (fun ls => ls ++ [socket]))
    (on_adapter (adapter_join socket socket) s).

(** One inbound event of [socket], with the answers [e] of the engine. *)
Definition handle (e : Engine) (socket : string) (ev : ClientEvent) : Server -> Server :=
  match ev with
  | Connection => handleSFUOperations socket
  | JoinVideoRoom roomId => on_join_video_room e socket roomId
  | LeaveVideoRoom roomId => on_leave_video_room socket roomId
  | CreateTransport roomId direction => on_create_transport e socket roomId direction
  | ConnectTransport transportId dtls => on_connect_transport e socket transportId dtls
  | CreateProducer transportId kind rtpParameters roomId =>
      on_create_producer e socket transportId kind rtpParameters roomId
  | CreateConsumer transportId producerId rtpCaps =>
      on_create_consumer e socket transportId producerId rtpCaps
  | ResumeConsumer consumerId => on_resume_consumer e socket consumerId
  | PauseConsumer consumerId => on_pause_consumer e socket consumerId
  | CloseProducer producerId roomId => on_close_producer socket producerId roomId
  | Disconnect => on_disconnect socket
  end.

(** A run of the server over a sequence of inbound events. *)
Definition run (evs : list (Engine * string * ClientEvent)) (s : Server) : Server :=
  fold_left (fun acc x => handle (fst (fst x)) (snd (fst x)) (snd x) acc) evs s.

(** [new MediaRouter()] behind a fresh Socket.IO server. *)
Definition new_MediaRouter : MediaRouter :=
  mkMediaRouter [] JsMap.empty JsMap.empty JsMap.empty JsMap.empty JsMap.empty
    JsMap.empty [] [].

Definition new_Server : Server := mkServer new_MediaRouter JsMap.empty [].

(** The server once [initialize()] has succeeded with worker ["w0"]. *)
Definition booted : Server :=
  fst (initialize
         (mkEngine (Ok "w0") (Throw "") 0 (Throw "") (Throw "") (Throw "") false
            (Throw "") (Throw "") (Throw ""))
         new_Server).

(** The events of a list of deliveries received by [sid]. *)
Definition received (sid : string) (ds : list Delivery) : list ServerEvent :=
  map snd (filter (fun d => String.eqb (fst d) sid) ds).

(** ** Auxiliary definitions for the statements *)

(** What a deleting loop leaves of a table: every key carried by an entry
    of [entries] that satisfies [cond] is deleted. *)
Definition sweep {V : Type} (cond : V -> bool) (entries m : JsMap.t V) : JsMap.t V :=
  fold_left (fun acc kv => if cond (snd kv) then JsMap.delete (fst kv) acc else acc)
    entries m.

(** The peer and room test of the loops of [leavePeer]. *)
Definition transport_of (peerId roomId : string) (ti : TransportInfo) : bool :=
  String.eqb (t_peerId ti) peerId && String.eqb (t_roomId ti) roomId.

Definition producer_of (peerId roomId : string) (pi : ProducerInfo) : bool :=
  String.eqb (p_peerId pi) peerId && String.eqb (p_roomId pi) roomId.

Definition consumer_of (peerId roomId : string) (ci : ConsumerInfo) : bool :=
  String.eqb (c_peerId ci) peerId && String.eqb (c_roomId ci) roomId.

(** The test of the loop of [closeProducer]. *)
Definition consumes (producerId : string) (ci : ConsumerInfo) : bool :=
  String.eqb (c_producerId ci) producerId.


(** Whether an event is a [new-producer-available] for [producerId]. *)
Definition advertises (producerId : string) (ev : ServerEvent) : bool :=
  match ev with
  | NewProducerAvailable _ p _ => String.eqb p producerId
  | _ => false
  end.

(** Whether an event is a [producer-closed]. *)
Definition is_producer_closed (ev : ServerEvent) : bool :=
  match ev with ProducerClosed _ _ => true | _ => false end.

(** Whether an event is an error reply carrying the machine code [code]. *)
Definition has_error_code (code : string) (ev : ServerEvent) : bool :=
  match ev with
  | VideoRoomError error _ | TransportError error _
  | ProducerError error _ | ConsumerError error _ => String.eqb error code
  | _ => false
  end.

(** An engine all of whose calls succeed, handing out the given ids. *)
Definition engine_ok (routerId transportId producerId consumerId : string) : Engine :=
  mkEngine (Ok "w0") (Ok (mkRouter routerId "caps")) 0
    (Ok (mkTransportParams transportId "ice" "candidates" "dtls")) (Ok tt)
    (Ok producerId) true (Ok (mkConsumerParams consumerId producerId "video" "rtp"))
    (Ok tt) (Ok tt).

(** An engine all of whose calls are rejected with [message]. *)
Definition engine_rejecting (message : string) : Engine :=
  mkEngine (Throw message) (Throw message) 0 (Throw message) (Throw message)
    (Throw message) false (Throw message) (Throw message) (Throw message).

(** Peers [p1] and [p2] connected and joined to room [A]. *)
Definition two_joined : Server :=
  run [ (engine_ok "r1" "" "" "", "p1", Connection);
        (engine_ok "r1" "" "" "", "p2", Connection);
        (engine_ok "r1" "" "" "", "p1", JoinVideoRoom "A");
        (engine_ok "r1" "" "" "", "p2", JoinVideoRoom "A") ] booted.

(** ... then [p2] has created its send transport [t2] (not connected). *)
Definition p2_has_transport : Server :=
  handle (engine_ok "r1" "t2" "" "") "p2" (CreateTransport "A" (Some "send")) two_joined.

(** ... then [p2] has connected [t2] and produces video as [prod1]. *)
Definition p2_produces : Server :=
  run [ (engine_ok "r1" "" "" "", "p2", ConnectTransport "t2" "dtls");
        (engine_ok "r1" "" "prod1" "", "p2", CreateProducer "t2" "video" "rtp" "A") ]
    p2_has_transport.

(** ... then [p1] consumes [prod1] on a receive transport [t1], as [c1]. *)
Definition p1_consumes : Server :=
  run [ (engine_ok "r1" "t1" "" "", "p1", CreateTransport "A" (Some "recv"));
        (engine_ok "r1" "" "" "", "p1", ConnectTransport "t1" "dtls");
        (engine_ok "r1" "" "prod1" "c1", "p1", CreateConsumer "t1" "prod1" "caps") ]
    p2_produces.

(** ... then [p2] leaves room [A]. *)
Definition p2_left : Server :=
  handle (engine_ok "r1" "" "" "") "p2" (LeaveVideoRoom "A") p2_produces.

(** ... and leaves it a second time. *)
Definition p2_left_twice : Server :=
  handle (engine_ok "r1" "" "" "") "p2" (LeaveVideoRoom "A") p2_left.

(** Whether an event is an error reply. *)
Definition is_error (ev : ServerEvent) : bool :=
  match ev with
  | VideoRoomError _ _ | TransportError _ _ | ProducerError _ _ | ConsumerError _ _ => true
  | _ => false
  end.

(** Whether a call to the engine is [transport.connect] on [transport]. *)
Definition is_connect_of (transport : string) (c : EngineCall) : bool :=
  match c with
  | TransportConnect t _ => String.eqb t transport
  | _ => false
  end.

(** The deliveries [emit('newProducer')] causes: one broadcast per
    registered listener, each from the socket of the listener. *)
Definition newProducer_deliveries (roomId peerId producerId kind : string)
    (s : Server) : list Delivery :=
  flat_map
    (fun socket =>
       map (fun r => (r, NewProducerAvailable peerId producerId kind))
         (recipients socket (video_room roomId) (adapter s)))
    (listeners (media s)).

(** [p1] alone, connected and joined to room [A]. *)
Definition p1_joined : Server :=
  run [ (engine_ok "r1" "" "" "", "p1", Connection);
        (engine_ok "r1" "" "" "", "p1", JoinVideoRoom "A") ] booted.

(** [p2] connects its transport [t2], for the first time. *)
Definition p2_connected : Server :=
  handle (engine_ok "r1" "" "" "") "p2" (ConnectTransport "t2" "dtls") p2_has_transport.

(** ... and a second time, the engine accepting the call. *)
Definition p2_connected_again : Server :=
  handle (engine_ok "r1" "" "" "") "p2" (ConnectTransport "t2" "dtls") p2_connected.

(** ... or a second time, the engine rejecting the call. *)
Definition p2_connect_rejected : Server :=
  handle (engine_rejecting "connect() already called") "p2"
    (ConnectTransport "t2" "dtls") p2_connected.



(** [p2], already producing video as [prod1], produces video again. *)
Definition p2_produces_twice : Server :=
  handle (engine_ok "r1" "" "prod2" "") "p2" (CreateProducer "t2" "video" "rtp" "A")
    p2_produces.


(** [this.routers] and [this.rooms] agree: a room id has a router exactly
    when it has a room record, and the record holds that router. *)
Definition consistent (rs : JsMap.t Router) (rms : JsMap.t RoomInfo) : Prop :=
  forall roomId, JsMap.get roomId rs = option_map room_router (JsMap.get roomId rms).

Definition routers_match_rooms (m : MediaRouter) : Prop :=
  consistent (routers m) (rooms m).

(** Every consumer record refers to a producer of the producer table. *)
Definition no_dangling_consumer (m : MediaRouter) : Prop :=
  forall consumerId consumerInfo,
    In (consumerId, consumerInfo) (consumers m) ->
    JsMap.get (c_producerId consumerInfo) (producers m) <> None.

(** The events that are answered with one reply and no echo. *)
Definition single_reply (ev : ClientEvent) : bool :=
  match ev with
  | Connection | Disconnect | CreateProducer _ _ _ _ => false
  | _ => true
  end.

(** * Properties *)

(** ** Facts on the containers *)

Section JsMapFacts.
Context {V : Type}.
Implicit Types (m : JsMap.t V) (k : string) (v : V).

Lemma get_In k v m : JsMap.get k m = Some v -> In (k, v) m.
Proof.
  induction m as [|[k' v'] m IH]; simpl; [discriminate|].
  destruct (String.eqb_spec k k') as [->|Hne].
  - intros [= ->]. now left.
  - intros H. right. now apply IH.
Qed.

Lemma In_delete k k' v m :
  In (k', v) (JsMap.delete k m) <-> In (k', v) m /\ k <> k'.
Proof.
  unfold JsMap.delete. rewrite filter_In. simpl.
  destruct (String.eqb_spec k k'); simpl; intuition congruence.
Qed.

Lemma get_delete_eq k m : JsMap.get k (JsMap.delete k m) = None.
Proof.
  induction m as [|[k' v'] m IH]; simpl; [reflexivity|].
  destruct (String.eqb_spec k k') as [->|Hne]; simpl; [exact IH|].
  destruct (String.eqb_spec k k'); [contradiction|exact IH].
Qed.

Lemma get_delete_neq k k' m :
  k <> k' -> JsMap.get k' (JsMap.delete k m) = JsMap.get k' m.
Proof.
  intros Hne. induction m as [|[k0 v0] m IH]; simpl; [reflexivity|].
  destruct (String.eqb_spec k k0) as [->|Hk]; simpl.
  - destruct (String.eqb_spec k' k0); [congruence|exact IH].
  - destruct (String.eqb_spec k' k0); [reflexivity|exact IH].
Qed.

Lemma delete_absent k m : JsMap.get k m = None -> JsMap.delete k m = m.
Proof.
  induction m as [|[k' v'] m IH]; simpl; [reflexivity|].
  destruct (String.eqb_spec k k') as [->|Hne]; [discriminate|].
  simpl. intros H. now rewrite IH.
Qed.

Lemma get_set_eq k v m : JsMap.get k (JsMap.set k v m) = Some v.
Proof.
  induction m as [|[k' v'] m IH]; simpl.
  - now rewrite String.eqb_refl.
  - destruct (String.eqb_spec k k') as [->|Hne]; simpl.
    + now rewrite String.eqb_refl.
    + destruct (String.eqb_spec k k'); [contradiction|exact IH].
Qed.

Lemma get_set_neq k k' v m :
  k <> k' -> JsMap.get k' (JsMap.set k v m) = JsMap.get k' m.
Proof.
  intros Hne. induction m as [|[k0 v0] m IH]; simpl.
  - destruct (String.eqb_spec k' k); [congruence|reflexivity].
  - destruct (String.eqb_spec k k0) as [->|Hk]; simpl.
    + destruct (String.eqb_spec k' k0); [congruence|reflexivity].
    + destruct (String.eqb_spec k' k0); [reflexivity|exact IH].
Qed.

Lemma set_same k v m : JsMap.get k m = Some v -> JsMap.set k v m = m.
Proof.
  induction m as [|[k' v'] m IH]; simpl; [discriminate|].
  destruct (String.eqb_spec k k') as [->|Hne].
  - now intros [= ->].
  - intros H. now rewrite IH.
Qed.

End JsMapFacts.

(** ** Facts on loops *)

Section LoopFacts.
Context {V S : Type}.

Lemma for_of_noop (entries : JsMap.t V) (body : string -> V -> S -> S) (s : S) :
  (forall k v acc, In (k, v) entries -> body k v acc = acc) ->
  for_of entries body s = s.
Proof.
  unfold for_of. revert s.
  induction entries as [|[k v] es IH]; intros s H; simpl; [reflexivity|].
  rewrite (H k v s (or_introl eq_refl)).
  apply IH. intros k' v' acc Hin. apply H. now right.
Qed.

Lemma for_of_project {P : Type} (proj : S -> P) (step : string -> V -> P -> P)
    (entries : JsMap.t V) (body : string -> V -> S -> S) (s : S) :
  (forall k v acc, proj (body k v acc) = step k v (proj acc)) ->
  proj (for_of entries body s) =
  fold_left (fun acc kv => step (fst kv) (snd kv) acc) entries (proj s).
Proof.
  intros H. unfold for_of. revert s.
  induction entries as [|[k v] es IH]; intros s; simpl; [reflexivity|].
  rewrite IH. now rewrite H.
Qed.

Lemma for_of_preserves {P : Type} (proj : S -> P)
    (entries : JsMap.t V) (body : string -> V -> S -> S) (s : S) :
  (forall k v acc, proj (body k v acc) = proj acc) ->
  proj (for_of entries body s) = proj s.
Proof.
  intros H. unfold for_of. revert s.
  induction entries as [|[k v] es IH]; intros s; simpl; [reflexivity|].
  rewrite IH. apply H.
Qed.

End LoopFacts.

Section SweepFacts.
Context {V : Type}.
Variable cond : V -> bool.

Lemma In_sweep (entries m : JsMap.t V) k v :
  In (k, v) (sweep cond entries m) <->
  In (k, v) m /\ (forall v', In (k, v') entries -> cond v' = false).
Proof.
  unfold sweep. revert m.
  induction entries as [|[k0 v0] es IH]; intros m; simpl.
  - intuition.
  - rewrite IH. destruct (cond v0) eqn:Hc.
    + rewrite In_delete. split.
      * intros [[Hin Hne] Hes]. split; [exact Hin|].
        intros v' [[= <- <-]|Hv']; [congruence|now apply Hes].
      * intros [Hin Hall]. split; [split; [exact Hin|]|].
        -- intros ->. specialize (Hall v0 (or_introl eq_refl)). congruence.
        -- intros v' Hv'. apply Hall. now right.
    + split.
      * intros [Hin Hes]. split; [exact Hin|].
        intros v' [[= <- <-]|Hv']; [exact Hc|now apply Hes].
      * intros [Hin Hall]. split; [exact Hin|].
        intros v' Hv'. apply Hall. now right.
Qed.

(** A loop that deletes the entries satisfying [cond] from the table it
    walks leaves no such entry. *)
Lemma sweep_self_clean (m : JsMap.t V) k v :
  In (k, v) (sweep cond m m) -> cond v = false.
Proof.
  intros H. apply In_sweep in H as [Hin Hall]. now apply Hall.
Qed.

Lemma sweep_none (entries m : JsMap.t V) :
  (forall k v, In (k, v) entries -> cond v = false) ->
  sweep cond entries m = m.
Proof.
  unfold sweep. revert m.
  induction entries as [|[k v] es IH]; intros m H; simpl; [reflexivity|].
  rewrite (H k v (or_introl eq_refl)). apply IH.
  intros k' v' Hin. apply (H k' v'). now right.
Qed.

(** Entries whose key no matching entry carries are kept. *)
Lemma sweep_keeps (entries m : JsMap.t V) k :
  (forall v', In (k, v') entries -> cond v' = false) ->
  JsMap.get k (sweep cond entries m) = JsMap.get k m.
Proof.
  unfold sweep. revert m.
  induction entries as [|[k0 v0] es IH]; intros m H; simpl; [reflexivity|].
  rewrite IH by (intros v' Hv'; apply H; now right).
  destruct (cond v0) eqn:Hc; [|reflexivity].
  apply get_delete_neq. intros ->.
  specialize (H v0 (or_introl eq_refl)). congruence.
Qed.

End SweepFacts.

Lemma fold_log {V : Type} (cond : V -> bool) (call : V -> EngineCall)
    (entries : JsMap.t V) (l : list EngineCall) :
  fold_left (fun acc kv => if cond (snd kv) then acc ++ [call (snd kv)] else acc)
    entries l =
  l ++ map (fun kv => call (snd kv)) (filter (fun kv => cond (snd kv)) entries).
Proof.
  revert l. induction entries as [|[k v] es IH]; intros l; simpl.
  - now rewrite app_nil_r.
  - rewrite IH. destruct (cond v); simpl; [|reflexivity].
    now rewrite <- app_assoc.
Qed.

Lemma get_None_of_not_In {V : Type} (k : string) (m : JsMap.t V) :
  (forall v, ~ In (k, v) m) -> JsMap.get k m = None.
Proof.
  intros H. destruct (JsMap.get k m) as [v|] eqn:E; [|reflexivity].
  exfalso. exact (H v (get_In _ _ _ E)).
Qed.

(** ** [closeProducer] *)

Lemma closeProducer_absent producerId m :
  JsMap.get producerId (producers m) = None -> closeProducer producerId m = m.
Proof. unfold closeProducer. now intros ->. Qed.

Lemma producers_closeProducer producerId m :
  producers (closeProducer producerId m) = JsMap.delete producerId (producers m).
Proof.
  unfold closeProducer.
  destruct (JsMap.get producerId (producers m)) eqn:E.
  - rewrite for_of_preserves; [reflexivity|].
    intros k v acc. now destruct (String.eqb (c_producerId v) producerId).
  - symmetry. now apply delete_absent.
Qed.

Lemma consumers_closeProducer producerId producerInfo m :
  JsMap.get producerId (producers m) = Some producerInfo ->
  consumers (closeProducer producerId m) =
  sweep (consumes producerId) (consumers m) (consumers m).
Proof.
  intros E. unfold closeProducer. rewrite E.
  rewrite (for_of_project consumers
    (fun k v acc => if consumes producerId v then JsMap.delete k acc else acc)).
  - reflexivity.
  - intros k v acc. unfold consumes.
    now destruct (String.eqb (c_producerId v) producerId).
Qed.

Lemma engine_closeProducer producerId producerInfo m :
  JsMap.get producerId (producers m) = Some producerInfo ->
  engine (closeProducer producerId m) =
  engine m ++ [ProducerClose (p_producer producerInfo)] ++
  map (fun kv => ConsumerClose (c_consumer (snd kv)))
    (filter (fun kv => consumes producerId (snd kv)) (consumers m)).
Proof.
  intros E. unfold closeProducer. rewrite E.
  rewrite (for_of_project engine
    (fun k v acc =>
       if consumes producerId v then acc ++ [ConsumerClose (c_consumer v)] else acc)).
  - rewrite (fold_log (consumes producerId) (fun v => ConsumerClose (c_consumer v))).
    simpl. now rewrite <- app_assoc.
  - intros k v acc. unfold consumes.
    now destruct (String.eqb (c_producerId v) producerId).
Qed.

(** [closeProducer] touches the producer table, the consumer table and the
    engine only. *)
Lemma closeProducer_frame producerId m :
  let m' := closeProducer producerId m in
  workers m' = workers m /\ routers m' = routers m /\
  transports m' = transports m /\ peers m' = peers m /\
  rooms m' = rooms m /\ listeners m' = listeners m.
Proof.
  unfold closeProducer.
  destruct (JsMap.get producerId (producers m)); [|now repeat split].
  repeat split; (rewrite for_of_preserves; [reflexivity|]);
    intros k v acc; now destruct (String.eqb (c_producerId v) producerId).
Qed.

Lemma media_emit socket ev s : media (emit socket ev s) = media s.
Proof. reflexivity. Qed.

Lemma media_to_emit socket room ev s : media (to_emit socket room ev s) = media s.
Proof. reflexivity. Qed.

Lemma media_on_media f s : media (on_media f s) = f (media s).
Proof. reflexivity. Qed.

Lemma media_on_adapter f s : media (on_adapter f s) = media s.
Proof. reflexivity. Qed.

Lemma on_close_producer_eq socket producerId roomId s :
  on_close_producer socket producerId roomId s =
  emit socket (ProducerClosed None producerId)
    (to_emit socket (video_room roomId) (ProducerClosed (Some socket) producerId)
       (on_media (closeProducer producerId) s)).
Proof. reflexivity. Qed.

(** C9. A close-producer event for a live producer removes the producer,
    closes it on the engine, and closes and removes every consumer whose
    [producerId] is the closed producer: no consumer record referencing it
    remains, and the consumers of other producers are kept. *)
Theorem close_producer_closes_its_consumers
    (e : Engine) (socket producerId roomId : string) (producerInfo : ProducerInfo)
    (s : Server) :
  JsMap.get producerId (producers (media s)) = Some producerInfo ->
  let s' := handle e socket (CloseProducer producerId roomId) s in
  JsMap.get producerId (producers (media s')) = None /\
  In (ProducerClose (p_producer producerInfo)) (engine (media s')) /\
  (forall cid ci, In (cid, ci) (consumers (media s')) -> c_producerId ci <> producerId) /\
  (forall cid ci, In (cid, ci) (consumers (media s)) -> c_producerId ci = producerId ->
     In (ConsumerClose (c_consumer ci)) (engine (media s')) /\
     JsMap.get cid (consumers (media s')) = None) /\
  (forall cid, (forall ci, In (cid, ci) (consumers (media s)) -> c_producerId ci <> producerId) ->
     JsMap.get cid (consumers (media s')) = JsMap.get cid (consumers (media s))).
Proof.
  intros E s'. subst s'. unfold handle.
  rewrite on_close_producer_eq, media_emit, media_to_emit, media_on_media.
  rewrite producers_closeProducer, (consumers_closeProducer _ _ _ E),
    (engine_closeProducer _ _ _ E).
  split; [apply get_delete_eq|].
  split; [rewrite in_app_iff; right; now left|].
  split; [|split].
  - intros cid ci Hin. apply sweep_self_clean in Hin.
    unfold consumes in Hin. now apply String.eqb_neq.
  - intros cid ci Hin Hp. split.
    + rewrite !in_app_iff. right. right.
      apply (in_map (fun kv => ConsumerClose (c_consumer (snd kv))) _ (cid, ci)).
      apply filter_In. split; [exact Hin|].
      unfold consumes. simpl. now apply String.eqb_eq.
    + apply get_None_of_not_In. intros v Hv.
      apply In_sweep in Hv as [_ Hall].
      specialize (Hall ci Hin). unfold consumes in Hall.
      apply String.eqb_neq in Hall. contradiction.
  - intros cid Hcid. apply sweep_keeps.
    intros v' Hv'. unfold consumes. apply String.eqb_neq. now apply Hcid.
Qed.

(** The precondition of C9 is met once [p1] consumes [prod1]. *)
Lemma close_producer_closes_its_consumers_witness :
  JsMap.get "prod1" (producers (media p1_consumes)) =
    Some (mkProducerInfo "prod1" "p2" "A" "video") /\
  let s' := handle (engine_ok "r1" "" "" "") "p2" (CloseProducer "prod1" "A") p1_consumes in
  JsMap.get "prod1" (producers (media s')) = None /\
  In (ProducerClose "prod1") (engine (media s')) /\
  (forall cid ci, In (cid, ci) (consumers (media s')) -> c_producerId ci <> "prod1").
Proof.
  split; [reflexivity|].
  pose proof (close_producer_closes_its_consumers (engine_ok "r1" "" "" "")
                "p2" "prod1" "A" (mkProducerInfo "prod1" "p2" "A" "video")
                p1_consumes eq_refl) as H.
  destruct H as (H1 & H2 & H3 & _).
  exact (conj H1 (conj H2 H3)).
Defined.

(** C10. A close-producer event naming a producer id absent from the
    producer table changes nothing in the media router (no table, no engine
    call) nor in the rooms, and is still answered as a success: the
    fan-out producer-closed {peerId, producerId} goes to every other
    member of the room, then the reply producer-closed {producerId} goes to
    the originator. *)
Theorem close_unknown_producer_is_silent_success
    (e : Engine) (socket producerId roomId : string) (s : Server) :
  JsMap.get producerId (producers (media s)) = None ->
  let s' := handle e socket (CloseProducer producerId roomId) s in
  closeProducer producerId (media s) = media s /\
  media s' = media s /\
  adapter s' = adapter s /\
  sent s' =
    sent s ++
    map (fun r => (r, ProducerClosed (Some socket) producerId))
      (recipients socket (video_room roomId) (adapter s)) ++
    [(socket, ProducerClosed None producerId)].
Proof.
  intros E s'. subst s'. unfold handle. rewrite on_close_producer_eq.
  pose proof (closeProducer_absent _ _ E) as Hc.
  split; [exact Hc|].
  split; [now rewrite media_emit, media_to_emit, media_on_media|].
  split; [reflexivity|].
  unfold emit, to_emit, deliver. simpl. now rewrite <- app_assoc.
Qed.

(** The precondition of C10 is met by an id nobody produced. *)
Lemma close_unknown_producer_is_silent_success_witness :
  JsMap.get "ghost" (producers (media p2_produces)) = None /\
  let s' := handle (engine_ok "r1" "" "" "") "p2" (CloseProducer "ghost" "A") p2_produces in
  media s' = media p2_produces /\
  sent s' =
    sent p2_produces ++
    [("p1", ProducerClosed (Some "p2") "ghost"); ("p2", ProducerClosed None "ghost")].
Proof.
  split; [reflexivity|].
  pose proof (close_unknown_producer_is_silent_success (engine_ok "r1" "" "" "")
                "p2" "ghost" "A" p2_produces eq_refl) as H.
  destruct H as (_ & H1 & _ & H2).
  exact (conj H1 H2).
Defined.

(** ** [leavePeer] *)

Lemma room_remove_peer_frame peerId roomId m :
  let m' := room_remove_peer peerId roomId m in
  workers m' = workers m /\ transports m' = transports m /\
  producers m' = producers m /\ consumers m' = consumers m /\
  peers m' = peers m /\ listeners m' = listeners m.
Proof.
  unfold room_remove_peer.
  destruct (JsMap.get roomId (rooms m)) as [room|]; [|now repeat split].
  destruct (JsSet.size (JsSet.delete peerId (room_peers room)) =? 0)%nat;
    now repeat split.
Qed.

Lemma leave_transports_frame peerId roomId m :
  let m' := leave_transports peerId roomId m in
  workers m' = workers m /\ routers m' = routers m /\
  producers m' = producers m /\ consumers m' = consumers m /\
  peers m' = peers m /\ rooms m' = rooms m /\ listeners m' = listeners m.
Proof.
  unfold leave_transports.
  repeat split; (rewrite for_of_preserves; [reflexivity|]);
    intros k v acc;
    now destruct (String.eqb (t_peerId v) peerId && String.eqb (t_roomId v) roomId).
Qed.

Lemma transports_leave_transports peerId roomId m :
  transports (leave_transports peerId roomId m) =
  sweep (transport_of peerId roomId) (transports m) (transports m).
Proof.
  unfold leave_transports.
  rewrite (for_of_project transports
    (fun k v acc => if transport_of peerId roomId v then JsMap.delete k acc else acc)).
  - reflexivity.
  - intros k v acc. unfold transport_of.
    now destruct (String.eqb (t_peerId v) peerId && String.eqb (t_roomId v) roomId).
Qed.

Lemma leave_producers_frame peerId roomId m :
  let m' := leave_producers peerId roomId m in
  workers m' = workers m /\ routers m' = routers m /\
  transports m' = transports m /\ peers m' = peers m /\
  rooms m' = rooms m /\ listeners m' = listeners m.
Proof.
  unfold leave_producers.
  repeat split; (rewrite for_of_preserves; [reflexivity|]);
    intros k v acc;
    destruct (String.eqb (p_peerId v) peerId && String.eqb (p_roomId v) roomId);
    try reflexivity; apply closeProducer_frame.
Qed.

Lemma producers_leave_producers peerId roomId m :
  producers (leave_producers peerId roomId m) =
  sweep (producer_of peerId roomId) (producers m) (producers m).
Proof.
  unfold leave_producers.
  rewrite (for_of_project producers
    (fun k v acc => if producer_of peerId roomId v then JsMap.delete k acc else acc)).
  - reflexivity.
  - intros k v acc. unfold producer_of.
    destruct (String.eqb (p_peerId v) peerId && String.eqb (p_roomId v) roomId);
      [apply producers_closeProducer|reflexivity].
Qed.

Lemma leave_consumers_frame peerId roomId m :
  let m' := leave_consumers peerId roomId m in
  workers m' = workers m /\ routers m' = routers m /\
  transports m' = transports m /\ producers m' = producers m /\
  peers m' = peers m /\ rooms m' = rooms m /\ listeners m' = listeners m.
Proof.
  unfold leave_consumers.
  repeat split; (rewrite for_of_preserves; [reflexivity|]);
    intros k v acc;
    now destruct (String.eqb (c_peerId v) peerId && String.eqb (c_roomId v) roomId).
Qed.

Lemma consumers_leave_consumers peerId roomId m :
  consumers (leave_consumers peerId roomId m) =
  sweep (consumer_of peerId roomId) (consumers m) (consumers m).
Proof.
  unfold leave_consumers.
  rewrite (for_of_project consumers
    (fun k v acc => if consumer_of peerId roomId v then JsMap.delete k acc else acc)).
  - reflexivity.
  - intros k v acc. unfold consumer_of.
    now destruct (String.eqb (c_peerId v) peerId && String.eqb (c_roomId v) roomId).
Qed.

Lemma transports_leavePeer peerId roomId m :
  transports (leavePeer peerId roomId m) =
  sweep (transport_of peerId roomId) (transports m) (transports m).
Proof.
  unfold leavePeer.
  destruct (room_remove_peer_frame peerId roomId
    (leave_consumers peerId roomId
       (leave_producers peerId roomId (leave_transports peerId roomId m))))
    as (_ & -> & _).
  destruct (leave_consumers_frame peerId roomId
    (leave_producers peerId roomId (leave_transports peerId roomId m)))
    as (_ & _ & -> & _).
  destruct (leave_producers_frame peerId roomId (leave_transports peerId roomId m))
    as (_ & _ & -> & _).
  apply transports_leave_transports.
Qed.

Lemma producers_leavePeer peerId roomId m :
  producers (leavePeer peerId roomId m) =
  sweep (producer_of peerId roomId) (producers m) (producers m).
Proof.
  unfold leavePeer.
  destruct (room_remove_peer_frame peerId roomId
    (leave_consumers peerId roomId
       (leave_producers peerId roomId (leave_transports peerId roomId m))))
    as (_ & _ & -> & _).
  destruct (leave_consumers_frame peerId roomId
    (leave_producers peerId roomId (leave_transports peerId roomId m)))
    as (_ & _ & _ & -> & _).
  rewrite producers_leave_producers.
  destruct (leave_transports_frame peerId roomId m) as (_ & _ & -> & _).
  reflexivity.
Qed.

Lemma consumers_leavePeer_clean peerId roomId m cid ci :
  In (cid, ci) (consumers (leavePeer peerId roomId m)) ->
  consumer_of peerId roomId ci = false.
Proof.
  unfold leavePeer.
  destruct (room_remove_peer_frame peerId roomId
    (leave_consumers peerId roomId
       (leave_producers peerId roomId (leave_transports peerId roomId m))))
    as (_ & _ & _ & -> & _).
  rewrite consumers_leave_consumers. apply sweep_self_clean.
Qed.

Lemma producer_of_false peerId roomId pi :
  producer_of peerId roomId pi = false <->
  ~ (p_peerId pi = peerId /\ p_roomId pi = roomId).
Proof.
  unfold producer_of.
  destruct (String.eqb_spec (p_peerId pi) peerId),
           (String.eqb_spec (p_roomId pi) roomId); simpl; intuition congruence.
Qed.

Lemma producers_leavePeer_clean peerId roomId m pid pi :
  In (pid, pi) (producers (leavePeer peerId roomId m)) ->
  In (pid, pi) (producers m) /\
  ~ (p_peerId pi = peerId /\ p_roomId pi = roomId).
Proof.
  rewrite producers_leavePeer. intros H. split.
  - now apply In_sweep in H.
  - apply producer_of_false. now apply sweep_self_clean in H.
Qed.

Lemma producers_leavePeer_removed peerId roomId m pid pi :
  In (pid, pi) (producers m) -> p_peerId pi = peerId -> p_roomId pi = roomId ->
  JsMap.get pid (producers (leavePeer peerId roomId m)) = None.
Proof.
  intros Hin Hp Hr. rewrite producers_leavePeer.
  apply get_None_of_not_In. intros v Hv.
  apply In_sweep in Hv as [_ Hall]. specialize (Hall pi Hin).
  apply producer_of_false in Hall. tauto.
Qed.

(** ** Socket.IO rooms *)

Lemma filter_idem {A : Type} (f : A -> bool) (l : list A) :
  filter f (filter f l) = filter f l.
Proof.
  induction l as [|a l IH]; simpl; [reflexivity|].
  destruct (f a) eqn:E; simpl; [now rewrite E, IH|exact IH].
Qed.

Lemma JsSet_delete_as_filter sid members :
  JsSet.delete sid members = filter (fun x => negb (String.eqb x sid)) members.
Proof.
  unfold JsSet.delete. apply filter_ext. intros a. now rewrite String.eqb_sym.
Qed.

(** Leaving a room does not change whom [socket.to(room)] reaches. *)
Lemma recipients_adapter_leave socket room a :
  recipients socket room (adapter_leave socket room a) = recipients socket room a.
Proof.
  unfold adapter_leave, recipients.
  destruct (JsMap.get room a) as [members|] eqn:E; [|now rewrite E].
  rewrite JsSet_delete_as_filter. unfold JsSet.size.
  destruct (filter (fun x => negb (String.eqb x socket)) members) as [|x xs] eqn:F; simpl.
  - now rewrite get_delete_eq.
  - rewrite get_set_eq. rewrite <- F. apply filter_idem.
Qed.

Lemma on_leave_video_room_eq socket roomId s :
  on_leave_video_room socket roomId s =
  emit socket (VideoRoomLeft roomId)
    (to_emit socket (video_room roomId) (PeerLeft socket)
       (on_media (leavePeer socket roomId)
          (on_adapter (adapter_leave socket (video_room roomId)) s))).
Proof. reflexivity. Qed.

Lemma sent_leave_video_room socket roomId s :
  sent (on_leave_video_room socket roomId s) =
  sent s ++
  map (fun r => (r, PeerLeft socket)) (recipients socket (video_room roomId) (adapter s)) ++
  [(socket, VideoRoomLeft roomId)].
Proof.
  rewrite on_leave_video_room_eq. unfold emit, to_emit, deliver, on_media, on_adapter.
  simpl. rewrite recipients_adapter_leave. now rewrite <- app_assoc.
Qed.

(** Closed statements about the scenarios are settled by evaluation. *)
Ltac by_evaluation :=
  repeat match goal with |- _ /\ _ => split end;
  vm_compute; first [reflexivity | discriminate].

(** C1, as stated, fails: [p2] owns producer [prod1] in room [A] and [p1]
    is another member of the room, yet when [p2] leaves, [p1] is sent
    peer-left and no producer-closed at all. *)
Lemma leave_sends_no_producer_closed :
  JsMap.get "prod1" (producers (media p2_produces)) =
    Some (mkProducerInfo "prod1" "p2" "A" "video") /\
  recipients "p2" (video_room "A") (adapter p2_produces) = ["p1"] /\
  JsMap.get "prod1" (producers (media p2_left)) = None /\
  sent p2_left = sent p2_produces ++ [("p1", PeerLeft "p2"); ("p2", VideoRoomLeft "A")] /\
  filter is_producer_closed (received "p1" (sent p2_left)) = [].
Proof. by_evaluation. Qed.

(** C1, amended. When a peer leaves a room by leave-video-room, every
    producer it owns in that room is removed from the producer table, each
    other member of the room is sent one peer-left {peerId}, the leaver is
    sent video-room-left, and nothing else is sent: no producer-closed. *)
Theorem leave_removes_producers_and_sends_peer_left
    (e : Engine) (socket roomId : string) (s : Server) :
  (forall pid pi, In (pid, pi) (producers (media s)) ->
     p_peerId pi = socket -> p_roomId pi = roomId ->
     JsMap.get pid (producers (media (handle e socket (LeaveVideoRoom roomId) s))) = None) /\
  (forall pid pi,
     In (pid, pi) (producers (media (handle e socket (LeaveVideoRoom roomId) s))) ->
     ~ (p_peerId pi = socket /\ p_roomId pi = roomId)) /\
  sent (handle e socket (LeaveVideoRoom roomId) s) =
    sent s ++
    map (fun r => (r, PeerLeft socket)) (recipients socket (video_room roomId) (adapter s)) ++
    [(socket, VideoRoomLeft roomId)] /\
  (forall d,
     In d (map (fun r => (r, PeerLeft socket))
             (recipients socket (video_room roomId) (adapter s)) ++
           [(socket, VideoRoomLeft roomId)]) ->
     is_producer_closed (snd d) = false).
Proof.
  unfold handle.
  split; [|split; [|split]].
  - intros pid pi Hin Hp Hr. rewrite on_leave_video_room_eq.
    rewrite media_emit, media_to_emit, media_on_media, media_on_adapter.
    now apply (producers_leavePeer_removed socket roomId _ pid pi).
  - intros pid pi Hin. rewrite on_leave_video_room_eq in Hin.
    rewrite media_emit, media_to_emit, media_on_media, media_on_adapter in Hin.
    now apply producers_leavePeer_clean in Hin.
  - apply sent_leave_video_room.
  - intros d Hd. apply in_app_or in Hd as [Hd|[<-|[]]]; [|reflexivity].
    apply in_map_iff in Hd as (x & <- & _). reflexivity.
Qed.

(** ** Leaving twice *)

Lemma leavePeer_fixpoint peerId roomId m :
  (forall k v, In (k, v) (transports m) -> transport_of peerId roomId v = false) ->
  (forall k v, In (k, v) (producers m) -> producer_of peerId roomId v = false) ->
  (forall k v, In (k, v) (consumers m) -> consumer_of peerId roomId v = false) ->
  match JsMap.get roomId (rooms m) with
  | None => True
  | Some room =>
      JsSet.delete peerId (room_peers room) = room_peers room /\ room_peers room <> []
  end ->
  leavePeer peerId roomId m = m.
Proof.
  intros Ht Hp Hc Hr. unfold leavePeer.
  assert (E1 : leave_transports peerId roomId m = m).
  { unfold leave_transports. apply for_of_noop. intros k v acc Hin.
    specialize (Ht k v Hin). unfold transport_of in Ht. now rewrite Ht. }
  rewrite E1.
  assert (E2 : leave_producers peerId roomId m = m).
  { unfold leave_producers. apply for_of_noop. intros k v acc Hin.
    specialize (Hp k v Hin). unfold producer_of in Hp. now rewrite Hp. }
  rewrite E2.
  assert (E3 : leave_consumers peerId roomId m = m).
  { unfold leave_consumers. apply for_of_noop. intros k v acc Hin.
    specialize (Hc k v Hin). unfold consumer_of in Hc. now rewrite Hc. }
  rewrite E3.
  unfold room_remove_peer.
  destruct (JsMap.get roomId (rooms m)) as [room|] eqn:E; [|reflexivity].
  destruct Hr as [Hd Hne]. rewrite Hd.
  destruct (room_peers room) as [|x xs] eqn:Ex; [contradiction|]. simpl.
  destruct room as [rid rr rp rc]. simpl in *. subst rp.
  unfold with_rooms. rewrite (set_same _ _ _ E). now destruct m.
Qed.

Lemma rooms_after_leavePeer peerId roomId m :
  match JsMap.get roomId (rooms (leavePeer peerId roomId m)) with
  | None => True
  | Some room =>
      JsSet.delete peerId (room_peers room) = room_peers room /\ room_peers room <> []
  end.
Proof.
  unfold leavePeer.
  generalize (leave_consumers peerId roomId
                (leave_producers peerId roomId (leave_transports peerId roomId m))).
  intros m3. unfold room_remove_peer.
  destruct (JsMap.get roomId (rooms m3)) as [room|] eqn:E; [|now rewrite E].
  destruct (JsSet.size (JsSet.delete peerId (room_peers room)) =? 0)%nat eqn:Z; simpl.
  - now rewrite get_delete_eq.
  - rewrite get_set_eq. simpl. split.
    + unfold JsSet.delete. apply filter_idem.
    + intros Hnil. rewrite Hnil in Z. discriminate.
Qed.

(** [leavePeer] is idempotent: a second call finds nothing to clean. *)
Lemma leavePeer_idempotent peerId roomId m :
  leavePeer peerId roomId (leavePeer peerId roomId m) = leavePeer peerId roomId m.
Proof.
  apply leavePeer_fixpoint.
  - intros k v. rewrite transports_leavePeer. apply sweep_self_clean.
  - intros k v. rewrite producers_leavePeer. apply sweep_self_clean.
  - intros k v. apply consumers_leavePeer_clean.
  - apply rooms_after_leavePeer.
Qed.

Lemma adapter_leave_idempotent sid room a :
  adapter_leave sid room (adapter_leave sid room a) = adapter_leave sid room a.
Proof.
  unfold adapter_leave at 2 3.
  destruct (JsMap.get room a) as [members|] eqn:E.
  - destruct (JsSet.size (JsSet.delete sid members) =? 0)%nat eqn:Z.
    + unfold adapter_leave. now rewrite get_delete_eq.
    + unfold adapter_leave. rewrite get_set_eq.
      assert (Hd : JsSet.delete sid (JsSet.delete sid members) = JsSet.delete sid members)
        by (unfold JsSet.delete; apply filter_idem).
      rewrite Hd, Z. apply set_same, get_set_eq.
  - unfold adapter_leave. now rewrite E.
Qed.

(** C7, as stated, fails: [p2], a member of room [A], leaves twice; the
    second leave is answered video-room-left again (and peer-left is fanned
    out again), and [p2] never receives an error carrying not-joined. *)
Lemma second_leave_is_not_rejected :
  JsMap.get (video_room "A") (adapter p2_produces) = Some ["p1"; "p2"] /\
  sent p2_left = sent p2_produces ++ [("p1", PeerLeft "p2"); ("p2", VideoRoomLeft "A")] /\
  sent p2_left_twice = sent p2_left ++ [("p1", PeerLeft "p2"); ("p2", VideoRoomLeft "A")] /\
  filter (has_error_code "not-joined") (received "p2" (sent p2_left_twice)) = [].
Proof. by_evaluation. Qed.

(** C7, amended. The first leave-video-room {roomId: R} completes the leave
    and is answered video-room-left; a second one from the same peer is
    served the same way: peer-left goes again to the other members of the
    room and the reply is video-room-left {roomId: R} again, never an
    error; it changes neither the media router nor the rooms. *)
Theorem second_leave_replies_left_again
    (e1 e2 : Engine) (socket roomId : string) (s : Server) :
  let s1 := handle e1 socket (LeaveVideoRoom roomId) s in
  let s2 := handle e2 socket (LeaveVideoRoom roomId) s1 in
  sent s1 =
    sent s ++
    map (fun r => (r, PeerLeft socket)) (recipients socket (video_room roomId) (adapter s)) ++
    [(socket, VideoRoomLeft roomId)] /\
  JsSet.has socket (match JsMap.get (video_room roomId) (adapter s1) with
                    | Some members => members | None => [] end) = false /\
  media s2 = media s1 /\
  adapter s2 = adapter s1 /\
  sent s2 =
    sent s1 ++
    map (fun r => (r, PeerLeft socket)) (recipients socket (video_room roomId) (adapter s)) ++
    [(socket, VideoRoomLeft roomId)].
Proof.
  intros s1 s2. subst s1 s2. unfold handle.
  split; [apply sent_leave_video_room|].
  split; [|split; [|split]].
  - rewrite on_leave_video_room_eq. unfold emit, to_emit, deliver, on_media, on_adapter.
    simpl. unfold adapter_leave.
    destruct (JsMap.get (video_room roomId) (adapter s)) as [members|] eqn:E.
    + destruct (JsSet.size (JsSet.delete socket members) =? 0)%nat eqn:Z.
      * now rewrite get_delete_eq.
      * rewrite get_set_eq. unfold JsSet.has, JsSet.delete.
        apply not_true_is_false. intros H. apply existsb_exists in H as (x & Hx & Hex).
        apply filter_In in Hx as [_ Hx]. rewrite Hex in Hx. discriminate.
    + now rewrite E.
  - rewrite (on_leave_video_room_eq socket roomId (on_leave_video_room socket roomId s)).
    rewrite media_emit, media_to_emit, media_on_media, media_on_adapter.
    rewrite (on_leave_video_room_eq socket roomId s).
    rewrite media_emit, media_to_emit, media_on_media, media_on_adapter.
    apply leavePeer_idempotent.
  - rewrite !on_leave_video_room_eq. unfold emit, to_emit, deliver, on_media, on_adapter.
    simpl. apply adapter_leave_idempotent.
  - rewrite sent_leave_video_room.
    rewrite (on_leave_video_room_eq socket roomId s) at 2.
    unfold emit, to_emit, deliver, on_media, on_adapter. simpl.
    now rewrite recipients_adapter_leave.
Qed.

(** ** The handlers, case by case *)

Lemma on_connect_transport_found e socket transportId dtls transportInfo s :
  JsMap.get transportId (transports (media s)) = Some transportInfo ->
  on_connect_transport e socket transportId dtls s =
  emit socket
    (match connect e with
     | Ok _ => TransportConnected transportId
     | Throw message => TransportError "Failed to connect transport" message
     end)
    (on_media (log (TransportConnect (t_transport transportInfo) dtls)) s).
Proof.
  intros E.
  unfold on_connect_transport, try_catch, bind, connectTransport, await, modify.
  rewrite E. now destruct (connect e).
Qed.

Lemma on_connect_transport_missing e socket transportId dtls s :
  JsMap.get transportId (transports (media s)) = None ->
  on_connect_transport e socket transportId dtls s =
  emit socket
    (TransportError "Failed to connect transport"
       ("Transport " ++ transportId ++ " not found")%string) s.
Proof.
  intros E.
  unfold on_connect_transport, try_catch, bind, connectTransport, await, modify.
  now rewrite E.
Qed.

Lemma emit_newProducer_spec roomId peerId producerId kind s :
  emit_newProducer roomId peerId producerId kind s =
  deliver (newProducer_deliveries roomId peerId producerId kind s) s.
Proof.
  unfold emit_newProducer, newProducer_deliveries.
  destruct s as [m a out]. simpl.
  generalize (listeners m) as ls. intros ls.
  assert (H : forall out0,
    fold_left
      (fun acc socket =>
         to_emit socket (video_room roomId)
           (NewProducerAvailable peerId producerId kind) acc)
      ls (mkServer m a out0) =
    mkServer m a
      (out0 ++ flat_map
         (fun socket =>
            map (fun r => (r, NewProducerAvailable peerId producerId kind))
              (recipients socket (video_room roomId) a)) ls)).
  { induction ls as [|l ls IH]; intros out0; simpl.
    - now rewrite app_nil_r.
    - unfold to_emit at 2. unfold deliver. simpl. rewrite IH.
      now rewrite <- app_assoc. }
  rewrite H. reflexivity.
Qed.

Lemma on_create_producer_missing e socket transportId kind rtp roomId s :
  JsMap.get transportId (transports (media s)) = None ->
  on_create_producer e socket transportId kind rtp roomId s =
  emit socket
    (ProducerError "Failed to create producer"
       ("Transport " ++ transportId ++ " not found")%string) s.
Proof.
  intros E.
  unfold on_create_producer, try_catch, bind, createProducer, await, modify.
  now rewrite E.
Qed.

Lemma on_create_producer_rejected e socket transportId kind rtp roomId transportInfo
    message s :
  JsMap.get transportId (transports (media s)) = Some transportInfo ->
  produce e = Throw message ->
  on_create_producer e socket transportId kind rtp roomId s =
  emit socket (ProducerError "Failed to create producer" message)
    (on_media (log (TransportProduce (t_transport transportInfo) kind rtp)) s).
Proof.
  intros E P.
  unfold on_create_producer, try_catch, bind, createProducer, await, modify.
  now rewrite E, P.
Qed.

(** The media router once [createProducer] has succeeded. *)
Lemma on_create_producer_accepted e socket transportId kind rtp roomId transportInfo
    producerId s :
  JsMap.get transportId (transports (media s)) = Some transportInfo ->
  produce e = Ok producerId ->
  on_create_producer e socket transportId kind rtp roomId s =
  let s1 :=
    on_media
      (fun m =>
         room_add_peer (t_roomId transportInfo) (t_peerId transportInfo)
           (with_producers
              (JsMap.set producerId
                 (mkProducerInfo producerId (t_peerId transportInfo)
                    (t_roomId transportInfo) kind))
              (log (TransportProduce (t_transport transportInfo) kind rtp) m))) s in
  deliver
    (newProducer_deliveries (t_roomId transportInfo) (t_peerId transportInfo)
       producerId kind s ++
     [(socket, ProducerCreated producerId kind)] ++
     map (fun r => (r, NewProducerAvailable socket producerId kind))
       (recipients socket (video_room roomId) (adapter s)))
    s1.
Proof.
  intros E P.
  unfold on_create_producer, createProducer, try_catch, bind, await, modify, ret.
  rewrite E, P. cbv beta iota. rewrite emit_newProducer_spec.
  unfold emit, to_emit, deliver, on_media, newProducer_deliveries. simpl.
  rewrite <- !app_assoc.
  replace (listeners (room_add_peer (t_roomId transportInfo) (t_peerId transportInfo)
     (with_producers
        (JsMap.set producerId
           (mkProducerInfo producerId (t_peerId transportInfo)
              (t_roomId transportInfo) kind))
        (log (TransportProduce (t_transport transportInfo) kind rtp) (media s)))))
    with (listeners (media s)); [reflexivity|].
  unfold room_add_peer. simpl.
  now destruct (JsMap.get (t_roomId transportInfo) (rooms (media s))).
Qed.

(** ** connect-transport *)

(** C5, as stated, fails: after a first successful connect-transport on
    [t2], a second one is passed to the engine again; when the engine
    rejects it the reply is transport-error with error "Failed to connect
    transport", when the engine accepts it the reply is transport-connected
    again; no reply carries already-connected. *)
Lemma second_connect_is_not_already_connected :
  sent p2_connected = sent p2_has_transport ++ [("p2", TransportConnected "t2")] /\
  sent p2_connect_rejected =
    sent p2_connected ++
    [("p2", TransportError "Failed to connect transport" "connect() already called")] /\
  sent p2_connected_again = sent p2_connected ++ [("p2", TransportConnected "t2")] /\
  filter (is_connect_of "t2") (engine (media p2_connected_again)) =
    [TransportConnect "t2" "dtls"; TransportConnect "t2" "dtls"] /\
  filter (has_error_code "already-connected") (received "p2" (sent p2_connect_rejected)) = [] /\
  filter (has_error_code "already-connected") (received "p2" (sent p2_connected_again)) = [].
Proof. by_evaluation. Qed.

(** C5, amended. The first successful connect-transport on an existing
    transport is answered transport-connected. The server keeps no
    connected flag: a later connect-transport for the same id calls the
    engine's connect again; it is answered transport-connected when the
    engine accepts, and transport-error with error "Failed to connect
    transport" and the engine's message as details when the engine
    rejects. No call changes a registry table. *)
Theorem connect_transport_is_passed_to_engine_each_time
    (e1 e2 : Engine) (socket transportId : string) (dtls1 dtls2 : Json)
    (transportInfo : TransportInfo) (s : Server) :
  JsMap.get transportId (transports (media s)) = Some transportInfo ->
  connect e1 = Ok tt ->
  let s1 := handle e1 socket (ConnectTransport transportId dtls1) s in
  let s2 := handle e2 socket (ConnectTransport transportId dtls2) s1 in
  sent s1 = sent s ++ [(socket, TransportConnected transportId)] /\
  sent s2 =
    sent s1 ++
    [(socket,
      match connect e2 with
      | Ok _ => TransportConnected transportId
      | Throw message => TransportError "Failed to connect transport" message
      end)] /\
  tables (media s1) = tables (media s) /\
  tables (media s2) = tables (media s) /\
  engine (media s2) =
    engine (media s) ++
    [TransportConnect (t_transport transportInfo) dtls1;
     TransportConnect (t_transport transportInfo) dtls2].
Proof.
  intros E C1 s1 s2. subst s1 s2. unfold handle.
  rewrite (on_connect_transport_found e1 socket transportId dtls1 transportInfo s E).
  rewrite C1.
  rewrite (on_connect_transport_found e2 socket transportId dtls2 transportInfo) by exact E.
  unfold emit, deliver, on_media, tables. simpl.
  repeat split. now rewrite <- app_assoc.
Qed.

Lemma connect_transport_is_passed_to_engine_each_time_witness :
  JsMap.get "t2" (transports (media p2_has_transport)) =
    Some (mkTransportInfo "t2" "p2" "A" "send") /\
  sent p2_connect_rejected =
    sent p2_connected ++
    [("p2", TransportError "Failed to connect transport" "connect() already called")] /\
  tables (media p2_connect_rejected) = tables (media p2_has_transport).
Proof.
  split; [reflexivity|].
  pose proof (connect_transport_is_passed_to_engine_each_time
                (engine_ok "r1" "" "" "") (engine_rejecting "connect() already called")
                "p2" "t2" "dtls" "dtls" (mkTransportInfo "t2" "p2" "A" "send")
                p2_has_transport eq_refl eq_refl) as H.
  destruct H as (_ & H2 & _ & H4 & _).
  exact (conj H2 H4).
Defined.

(** ** create-producer *)




Lemma received_app sid (a b : list Delivery) :
  received sid (a ++ b) = received sid a ++ received sid b.
Proof. unfold received. now rewrite filter_app, map_app. Qed.

Lemma received_self socket ev : received socket [(socket, ev)] = [ev].
Proof. unfold received. simpl. now rewrite String.eqb_refl. Qed.

(** A socket never receives what it broadcasts with [socket.to(room)]. *)
Lemma received_own_broadcast socket room ev a :
  received socket (map (fun r => (r, ev)) (recipients socket room a)) = [].
Proof.
  unfold received, recipients.
  destruct (JsMap.get room a) as [members|]; [|reflexivity].
  induction members as [|x xs IH]; simpl; [reflexivity|].
  destruct (String.eqb x socket) eqn:Ex; simpl; [exact IH|].
  rewrite Ex. exact IH.
Qed.

Lemma sent_deliver ds s : sent (deliver ds s) = sent s ++ ds.
Proof. reflexivity. Qed.

Lemma sent_on_media f s : sent (on_media f s) = sent s.
Proof. reflexivity. Qed.

Lemma media_deliver ds s : media (deliver ds s) = media s.
Proof. reflexivity. Qed.

Lemma producers_room_add_peer roomId peerId m :
  producers (room_add_peer roomId peerId m) = producers m.
Proof. unfold room_add_peer. now destruct (JsMap.get roomId (rooms m)). Qed.

(** C8, as stated, fails: [p2], with live video producer [prod1], issues
    create-producer for video again; the event is accepted and the producer
    table then holds two video producers of [p2]. *)
Lemma second_producer_of_same_kind_is_inserted :
  map (fun kv => (fst kv, p_peerId (snd kv), p_kind (snd kv)))
    (producers (media p2_produces)) = [("prod1", "p2", "video")] /\
  map (fun kv => (fst kv, p_peerId (snd kv), p_kind (snd kv)))
    (producers (media p2_produces_twice)) =
    [("prod1", "p2", "video"); ("prod2", "p2", "video")] /\
  filter is_error (received "p2" (sent p2_produces_twice)) = [] /\
  filter (fun ev => match ev with ProducerCreated _ _ => true | _ => false end)
    (received "p2" (sent p2_produces_twice)) =
    [ProducerCreated "prod1" "video"; ProducerCreated "prod2" "video"].
Proof. by_evaluation. Qed.

(** C8, amended. The server does not compare kinds: a create-producer
    event on a known transport that the engine accepts inserts a producer
    record (peer and room of the transport, requested kind) under the id
    the engine returns, keeps every other producer record, and is answered
    producer-created, whatever producers the peer already has. *)
Theorem create_producer_inserts_whatever_the_kind
    (e : Engine) (socket transportId kind : string) (rtp : Json) (roomId : string)
    (transportInfo : TransportInfo) (producerId : string) (s : Server) :
  JsMap.get transportId (transports (media s)) = Some transportInfo ->
  produce e = Ok producerId ->
  let s' := handle e socket (CreateProducer transportId kind rtp roomId) s in
  JsMap.get producerId (producers (media s')) =
    Some (mkProducerInfo producerId (t_peerId transportInfo)
            (t_roomId transportInfo) kind) /\
  (forall other, other <> producerId ->
     JsMap.get other (producers (media s')) = JsMap.get other (producers (media s))) /\
  received socket (sent s') =
    received socket (sent s) ++
    received socket
      (newProducer_deliveries (t_roomId transportInfo) (t_peerId transportInfo)
         producerId kind s) ++
    [ProducerCreated producerId kind].
Proof.
  intros E P s'. subst s'. unfold handle.
  rewrite (on_create_producer_accepted e socket transportId kind rtp roomId
             transportInfo producerId s E P).
  cbv zeta. rewrite media_deliver, media_on_media, producers_room_add_peer.
  rewrite sent_deliver, sent_on_media.
  split; [apply get_set_eq|].
  split; [intros other Hne; apply get_set_neq; congruence|].
  rewrite !received_app, received_self, received_own_broadcast.
  now rewrite app_nil_r.
Qed.

Lemma create_producer_inserts_whatever_the_kind_witness :
  JsMap.get "t2" (transports (media p2_produces)) =
    Some (mkTransportInfo "t2" "p2" "A" "send") /\
  JsMap.get "prod2" (producers (media p2_produces_twice)) =
    Some (mkProducerInfo "prod2" "p2" "A" "video") /\
  (forall other, other <> "prod2" ->
     JsMap.get other (producers (media p2_produces_twice)) =
     JsMap.get other (producers (media p2_produces))).
Proof.
  split; [reflexivity|].
  pose proof (create_producer_inserts_whatever_the_kind
                (engine_ok "r1" "" "prod2" "") "p2" "t2" "video" "rtp" "A"
                (mkTransportInfo "t2" "p2" "A" "send") "prod2" p2_produces
                eq_refl eq_refl) as H.
  destruct H as (H1 & H2 & _).
  exact (conj H1 H2).
Defined.

(** ** Ownership *)






(** ** Advertisements and membership *)

(** C2 at the failing input: [p1] and [p2] are both in room [A] and [p2]
    produces [prod1]. The listener of [p1] and the handler of [p2] both
    broadcast, so [p1] receives new-producer-available for [prod1] twice,
    and the listener of [p1] reaches the originator [p2] itself. *)
Theorem new_producer_is_advertised_twice_and_echoed :
  JsMap.get (video_room "A") (adapter p2_connected) = Some ["p1"; "p2"] /\
  listeners (media p2_connected) = ["p1"; "p2"] /\
  p2_produces =
    handle (engine_ok "r1" "" "prod1" "") "p2" (CreateProducer "t2" "video" "rtp" "A")
      p2_connected /\
  sent p2_produces =
    sent p2_connected ++
    [("p2", NewProducerAvailable "p2" "prod1" "video");
     ("p1", NewProducerAvailable "p2" "prod1" "video");
     ("p2", ProducerCreated "prod1" "video");
     ("p1", NewProducerAvailable "p2" "prod1" "video")] /\
  filter (advertises "prod1") (received "p1" (sent p2_produces)) =
    [NewProducerAvailable "p2" "prod1" "video"; NewProducerAvailable "p2" "prod1" "video"] /\
  filter (advertises "prod1") (received "p2" (sent p2_produces)) =
    [NewProducerAvailable "p2" "prod1" "video"].
Proof. by_evaluation. Qed.

(** C3 at the failing input: after the successful join of [p1] to room
    [A] the room exists with an empty member set ([p1] is only in the
    Socket.IO room); and when [p2] leaves, the room is dropped and its
    router closed although [p1] is still joined. *)
Theorem join_does_not_add_room_member :
  received "p1" (sent p1_joined) = [VideoRoomJoined "caps" []] /\
  JsMap.get (video_room "A") (adapter p1_joined) = Some ["p1"] /\
  JsMap.get "A" (rooms (media p1_joined)) =
    Some (mkRoomInfo "A" (mkRouter "r1" "caps") [] 0) /\
  JsMap.get (video_room "A") (adapter p2_left) = Some ["p1"] /\
  JsMap.get "A" (rooms (media p2_left)) = None /\
  engine (media p2_left) = engine (media p2_produces) ++
    [TransportClose "t2"; ProducerClose "prod1"; RouterClose "r1"].
Proof. by_evaluation. Qed.

(** * Further properties of the media router and of the handlers *)

(** ** [getOrCreateRouter] *)

(** The four outcomes of [getOrCreateRouter]. *)
Lemma getOrCreateRouter_cases e roomId s :
  (exists router,
     JsMap.get roomId (routers (media s)) = Some router /\
     getOrCreateRouter e roomId s = (s, Ok router)) \/
  (JsMap.get roomId (routers (media s)) = None /\ workers (media s) = [] /\
   getOrCreateRouter e roomId s =
     (s, Throw "Cannot read properties of undefined (reading 'createRouter')")) \/
  (exists worker ws message,
     JsMap.get roomId (routers (media s)) = None /\ workers (media s) = worker :: ws /\
     createRouter e = Throw message /\
     getOrCreateRouter e roomId s =
       (on_media (log (WorkerCreateRouter worker)) s, Throw message)) \/
  (exists worker ws router,
     JsMap.get roomId (routers (media s)) = None /\ workers (media s) = worker :: ws /\
     createRouter e = Ok router /\
     getOrCreateRouter e roomId s =
       (on_media
          (fun m =>
             with_rooms (JsMap.set roomId (mkRoomInfo roomId router [] (now e)))
               (with_routers (JsMap.set roomId router)
                  (log (WorkerCreateRouter worker) m))) s,
        Ok router)).
Proof.
  unfold getOrCreateRouter, JsMap.has.
  destruct (JsMap.get roomId (routers (media s))) as [router|] eqn:E.
  - left. now exists router.
  - right. destruct (workers (media s)) as [|worker ws] eqn:W.
    + left. now repeat split.
    + right. unfold bind, await, modify, ret.
      destruct (createRouter e) as [router|message] eqn:C.
      * right. exists worker, ws, router. now repeat split.
      * left. exists worker, ws, message. now repeat split.
Qed.

(** What [getOrCreateRouter] leaves alone. *)
Lemma getOrCreateRouter_frame e roomId s s' r :
  getOrCreateRouter e roomId s = (s', r) ->
  adapter s' = adapter s /\ sent s' = sent s /\
  workers (media s') = workers (media s) /\
  transports (media s') = transports (media s) /\
  producers (media s') = producers (media s) /\
  consumers (media s') = consumers (media s) /\
  peers (media s') = peers (media s) /\
  listeners (media s') = listeners (media s).
Proof.
  intros H.
  destruct (getOrCreateRouter_cases e roomId s)
    as [(router & _ & E)|[(_ & _ & E)|[(w & ws & msg & _ & _ & _ & E)|
        (w & ws & router & _ & _ & _ & E)]]];
    rewrite E in H; injection H as <- <-; now repeat split.
Qed.

Lemma on_join_video_room_eq e socket roomId s :
  on_join_video_room e socket roomId s =
  match getOrCreateRouter e roomId
          (on_adapter (adapter_join socket (video_room roomId)) s) with
  | (s2, Ok router) =>
      to_emit socket (video_room roomId) (NewPeerJoined socket)
        (emit socket
           (VideoRoomJoined (rtpCapabilities router)
              (getRoomProducers roomId (Some socket) (media s2))) s2)
  | (s2, Throw message) =>
      emit socket (VideoRoomError "Failed to join video room" message) s2
  end.
Proof.
  unfold on_join_video_room, getRouterCapabilities, try_catch, bind, modify, gets, ret.
  now destruct (getOrCreateRouter e roomId
                  (on_adapter (adapter_join socket (video_room roomId)) s))
    as [s2 [router|message]].
Qed.

Lemma on_create_transport_eq e socket roomId direction s :
  on_create_transport e socket roomId direction s =
  match getOrCreateRouter e roomId s with
  | (s1, Ok router) =>
      let s2 := on_media (log (RouterCreateWebRtcTransport (router_id router))) s1 in
      match createWebRtcTransport_ e with
      | Ok transport =>
          emit socket (TransportCreated direction transport)
            (on_media
               (with_transports
                  (JsMap.set (tp_id transport)
                     (mkTransportInfo (tp_id transport) socket roomId
                        (match direction with Some d => d | None => "send" end))))
               s2)
      | Throw message =>
          emit socket (TransportError "Failed to create transport" message) s2
      end
  | (s1, Throw message) =>
      emit socket (TransportError "Failed to create transport" message) s1
  end.
Proof.
  unfold on_create_transport, createWebRtcTransport, try_catch, bind, await, modify, ret.
  destruct (getOrCreateRouter e roomId s) as [s1 [router|message]]; [|reflexivity].
  now destruct (createWebRtcTransport_ e).
Qed.

Lemma on_create_consumer_eq e socket transportId producerId rtpCaps s :
  on_create_consumer e socket transportId producerId rtpCaps s =
  match JsMap.get transportId (transports (media s)) with
  | None =>
      emit socket
        (ConsumerError "Failed to create consumer"
           ("Transport " ++ transportId ++ " not found")%string) s
  | Some transportInfo =>
      match JsMap.get producerId (producers (media s)) with
      | None =>
          emit socket
            (ConsumerError "Failed to create consumer"
               ("Producer " ++ producerId ++ " not found")%string) s
      | Some _ =>
          match getOrCreateRouter e (t_roomId transportInfo) s with
          | (s1, Throw message) =>
              emit socket (ConsumerError "Failed to create consumer" message) s1
          | (s1, Ok router) =>
              let s2 := on_media (log (RouterCanConsume (router_id router) producerId)) s1 in
              if canConsume e then
                let s3 :=
                  on_media (log (TransportConsume (t_transport transportInfo) producerId))
                    s2 in
                match consume e with
                | Ok consumer =>
                    emit socket
                      (ConsumerCreated
                         (mkConsumerParams (cp_id consumer) producerId
                            (cp_kind consumer) (cp_rtpParameters consumer)))
                      (on_media
                         (with_consumers
                            (JsMap.set (cp_id consumer)
                               (mkConsumerInfo (cp_id consumer) (t_peerId transportInfo)
                                  (t_roomId transportInfo) producerId))) s3)
                | Throw message =>
                    emit socket (ConsumerError "Failed to create consumer" message) s3
                end
              else
                emit socket
                  (ConsumerError "Failed to create consumer" "Cannot consume producer") s2
          end
      end
  end.
Proof.
  unfold on_create_consumer, try_catch. unfold bind at 1. unfold createConsumer.
  destruct (JsMap.get transportId (transports (media s))) as [ti|]; [|reflexivity].
  destruct (JsMap.get producerId (producers (media s))); [|reflexivity].
  unfold bind, await, modify, ret, throw.
  destruct (getOrCreateRouter e (t_roomId ti) s) as [s1 [router|message]]; [|reflexivity].
  destruct (canConsume e); simpl; [|reflexivity].
  now destruct (consume e).
Qed.

Lemma on_resume_consumer_eq e socket consumerId s :
  on_resume_consumer e socket consumerId s =
  match JsMap.get consumerId (consumers (media s)) with
  | None =>
      emit socket
        (ConsumerError "Failed to resume consumer"
           ("Consumer " ++ consumerId ++ " not found")%string) s
  | Some consumerInfo =>
      emit socket
        (match resume e with
         | Ok _ => ConsumerResumed consumerId
         | Throw message => ConsumerError "Failed to resume consumer" message
         end)
        (on_media (log (ConsumerResume (c_consumer consumerInfo))) s)
  end.
Proof.
  unfold on_resume_consumer, resumeConsumer, try_catch, bind, await, modify.
  destruct (JsMap.get consumerId (consumers (media s))); [|reflexivity].
  now destruct (resume e).
Qed.

Lemma on_pause_consumer_eq e socket consumerId s :
  on_pause_consumer e socket consumerId s =
  match JsMap.get consumerId (consumers (media s)) with
  | None =>
      emit socket
        (ConsumerError "Failed to pause consumer"
           ("Consumer " ++ consumerId ++ " not found")%string) s
  | Some consumerInfo =>
      emit socket
        (match pause e with
         | Ok _ => ConsumerPaused consumerId
         | Throw message => ConsumerError "Failed to pause consumer" message
         end)
        (on_media (log (ConsumerPause (c_consumer consumerInfo))) s)
  end.
Proof.
  unfold on_pause_consumer, pauseConsumer, try_catch, bind, await, modify.
  destruct (JsMap.get consumerId (consumers (media s))); [|reflexivity].
  now destruct (pause e).
Qed.

(** ** Invariants of the registries *)

Lemma for_of_invariant {V S : Type} (P : S -> Prop) (entries : JsMap.t V)
    (body : string -> V -> S -> S) (s : S) :
  (forall k v acc, P acc -> P (body k v acc)) -> P s -> P (for_of entries body s).
Proof.
  intros H. unfold for_of. revert s.
  induction entries as [|[k v] es IH]; intros s Hs; simpl; [exact Hs|].
  apply IH. now apply H.
Qed.

Lemma In_set {V : Type} (k k0 : string) (v v0 : V) (m : JsMap.t V) :
  In (k, v) (JsMap.set k0 v0 m) -> (k, v) = (k0, v0) \/ In (k, v) m.
Proof.
  induction m as [|[k' v'] m IH]; simpl.
  - intros [H|[]]. now left.
  - destruct (String.eqb k0 k'); simpl.
    + intros [H|H]; [now left|right; now right].
    + intros [H|H]; [right; now left|].
      destruct (IH H) as [E|E]; [now left|right; now right].
Qed.

Lemma consistent_set rs rms roomId router room :
  consistent rs rms -> room_router room = router ->
  consistent (JsMap.set roomId router rs) (JsMap.set roomId room rms).
Proof.
  intros H Hr r. destruct (String.eqb_spec roomId r) as [->|Hne].
  - rewrite !get_set_eq. simpl. now rewrite Hr.
  - rewrite !get_set_neq by exact Hne. apply H.
Qed.

Lemma consistent_set_room rs rms roomId old room :
  consistent rs rms -> JsMap.get roomId rms = Some old ->
  room_router room = room_router old ->
  consistent rs (JsMap.set roomId room rms).
Proof.
  intros H Ho Hr r. destruct (String.eqb_spec roomId r) as [->|Hne].
  - rewrite get_set_eq, (H r), Ho. simpl. now rewrite Hr.
  - rewrite get_set_neq by exact Hne. apply H.
Qed.

Lemma consistent_delete rs rms roomId :
  consistent rs rms ->
  consistent (JsMap.delete roomId rs) (JsMap.delete roomId rms).
Proof.
  intros H r. destruct (String.eqb_spec roomId r) as [->|Hne].
  - now rewrite !get_delete_eq.
  - rewrite !get_delete_neq by exact Hne. apply H.
Qed.

Lemma getOrCreateRouter_consistent e roomId s s' r :
  getOrCreateRouter e roomId s = (s', r) ->
  routers_match_rooms (media s) -> routers_match_rooms (media s').
Proof.
  intros H Hc.
  destruct (getOrCreateRouter_cases e roomId s)
    as [(router & _ & E)|[(_ & _ & E)|[(w & ws & msg & _ & _ & _ & E)|
        (w & ws & router & _ & _ & _ & E)]]];
    rewrite E in H; injection H as <- <-; try exact Hc.
  unfold routers_match_rooms. simpl. now apply consistent_set.
Qed.

Lemma room_add_peer_consistent roomId peerId m :
  routers_match_rooms m -> routers_match_rooms (room_add_peer roomId peerId m).
Proof.
  intros H. unfold room_add_peer.
  destruct (JsMap.get roomId (rooms m)) as [room|] eqn:E; [|exact H].
  unfold routers_match_rooms. simpl. now apply (consistent_set_room _ _ _ room).
Qed.

Lemma room_remove_peer_consistent peerId roomId m :
  routers_match_rooms m -> routers_match_rooms (room_remove_peer peerId roomId m).
Proof.
  intros H. unfold room_remove_peer.
  destruct (JsMap.get roomId (rooms m)) as [room|] eqn:E; [|exact H].
  assert (H1 : consistent (routers m)
                 (JsMap.set roomId
                    (mkRoomInfo (room_id room) (room_router room)
                       (JsSet.delete peerId (room_peers room)) (createdAt room))
                    (rooms m)))
    by now apply (consistent_set_room _ _ _ room).
  destruct (JsSet.size (JsSet.delete peerId (room_peers room)) =? 0)%nat.
  - unfold routers_match_rooms. simpl. now apply consistent_delete.
  - exact H1.
Qed.

Lemma leavePeer_consistent peerId roomId m :
  routers_match_rooms m -> routers_match_rooms (leavePeer peerId roomId m).
Proof.
  intros H. unfold leavePeer. apply room_remove_peer_consistent.
  unfold routers_match_rooms.
  destruct (leave_consumers_frame peerId roomId
              (leave_producers peerId roomId (leave_transports peerId roomId m)))
    as (_ & -> & _ & _ & _ & -> & _).
  destruct (leave_producers_frame peerId roomId (leave_transports peerId roomId m))
    as (_ & -> & _ & _ & -> & _).
  destruct (leave_transports_frame peerId roomId m) as (_ & -> & _ & _ & _ & -> & _).
  exact H.
Qed.

Lemma disconnect_cleanup_media_invariant (P : MediaRouter -> Prop) socket socketRooms s :
  (forall roomId m, P m -> P (leavePeer socket roomId m)) ->
  P (media s) -> P (media (disconnect_cleanup socket socketRooms s)).
Proof.
  intros Hl. unfold disconnect_cleanup.
  generalize (video_rooms_of socket socketRooms). intros l. revert s.
  induction l as [|r rs IH]; intros s Hs; simpl; [exact Hs|].
  apply IH. apply Hl. exact Hs.
Qed.

Lemma handle_consistent e socket ev s :
  routers_match_rooms (media s) -> routers_match_rooms (media (handle e socket ev s)).
Proof.
  intros H.
  destruct ev as [|roomId|roomId|roomId direction|tid dtls|tid kind rtp roomId
                  |tid pid caps|cid|cid|pid roomId|]; unfold handle.
  - exact H.
  - rewrite on_join_video_room_eq.
    destruct (getOrCreateRouter e roomId
                (on_adapter (adapter_join socket (video_room roomId)) s))
      as [s2 [router|message]] eqn:G;
      apply getOrCreateRouter_consistent in G; auto.
  - rewrite on_leave_video_room_eq. now apply leavePeer_consistent.
  - rewrite on_create_transport_eq.
    destruct (getOrCreateRouter e roomId s) as [s1 [router|message]] eqn:G;
      apply getOrCreateRouter_consistent in G; auto.
    cbv zeta. now destruct (createWebRtcTransport_ e).
  - destruct (JsMap.get tid (transports (media s))) as [ti|] eqn:E.
    + now rewrite (on_connect_transport_found e _ tid dtls ti s E).
    + now rewrite (on_connect_transport_missing e _ tid dtls s E).
  - destruct (JsMap.get tid (transports (media s))) as [ti|] eqn:E.
    + destruct (produce e) as [pid|message] eqn:P.
      * rewrite (on_create_producer_accepted e _ tid kind rtp roomId ti pid s E P).
        cbv zeta. rewrite media_deliver, media_on_media.
        now apply room_add_peer_consistent.
      * now rewrite (on_create_producer_rejected e _ tid kind rtp roomId ti message s E P).
    + now rewrite (on_create_producer_missing e _ tid kind rtp roomId s E).
  - rewrite on_create_consumer_eq.
    destruct (JsMap.get tid (transports (media s))) as [ti|]; [|exact H].
    destruct (JsMap.get pid (producers (media s))); [|exact H].
    destruct (getOrCreateRouter e (t_roomId ti) s) as [s1 [router|message]] eqn:G;
      apply getOrCreateRouter_consistent in G; auto.
    cbv zeta. destruct (canConsume e); [|exact G].
    now destruct (consume e).
  - rewrite on_resume_consumer_eq.
    now destruct (JsMap.get cid (consumers (media s))).
  - rewrite on_pause_consumer_eq.
    now destruct (JsMap.get cid (consumers (media s))).
  - rewrite on_close_producer_eq, media_emit, media_to_emit, media_on_media.
    unfold routers_match_rooms.
    destruct (closeProducer_frame pid (media s)) as (_ & -> & _ & _ & -> & _).
    exact H.
  - unfold on_disconnect. cbv zeta.
    apply disconnect_cleanup_media_invariant; [|exact H].
    intros roomId m. apply leavePeer_consistent.
Qed.

Lemma run_invariant (P : Server -> Prop) evs s :
  (forall e socket ev s0, P s0 -> P (handle e socket ev s0)) ->
  P s -> P (run evs s).
Proof.
  intros H. unfold run. revert s.
  induction evs as [|[[e socket] ev] evs IH]; intros s Hs; simpl; [exact Hs|].
  apply IH. now apply H.
Qed.

(** X1. Along any run of the server, [this.routers] and [this.rooms] stay
    in step: a room id has a router exactly when it has a room record, and
    the record holds that very router (one router per live room). *)
Theorem routers_and_rooms_stay_in_step
    (evs : list (Engine * string * ClientEvent)) (s : Server) :
  routers_match_rooms (media s) -> routers_match_rooms (media (run evs s)).
Proof.
  apply (run_invariant (fun s0 => routers_match_rooms (media s0))).
  intros e socket ev s0. apply handle_consistent.
Qed.

Lemma routers_and_rooms_stay_in_step_witness :
  routers_match_rooms (media booted) /\
  routers_match_rooms
    (media (run [ (engine_ok "r1" "" "" "", "p1", Connection);
                  (engine_ok "r1" "" "" "", "p1", JoinVideoRoom "A");
                  (engine_ok "r1" "" "" "", "p1", LeaveVideoRoom "A") ] booted)).
Proof.
  assert (H : routers_match_rooms (media booted)) by (intros r; reflexivity).
  split; [exact H|].
  exact (routers_and_rooms_stay_in_step _ booted H).
Defined.

(** ** No consumer outlives its producer *)

Lemma consumers_room_add_peer roomId peerId m :
  consumers (room_add_peer roomId peerId m) = consumers m.
Proof. unfold room_add_peer. now destruct (JsMap.get roomId (rooms m)). Qed.

Lemma closeProducer_no_dangling producerId m :
  no_dangling_consumer m -> no_dangling_consumer (closeProducer producerId m).
Proof.
  intros H. destruct (JsMap.get producerId (producers m)) as [pi|] eqn:E.
  - intros cid ci Hin.
    rewrite (consumers_closeProducer _ _ _ E) in Hin.
    rewrite producers_closeProducer.
    pose proof (sweep_self_clean _ _ _ _ Hin) as Hc.
    apply In_sweep in Hin as [Hin _].
    unfold consumes in Hc. apply String.eqb_neq in Hc.
    rewrite get_delete_neq by congruence. now apply (H cid).
  - now rewrite closeProducer_absent.
Qed.

Lemma leavePeer_no_dangling peerId roomId m :
  no_dangling_consumer m -> no_dangling_consumer (leavePeer peerId roomId m).
Proof.
  intros H. unfold leavePeer.
  assert (H1 : no_dangling_consumer (leave_transports peerId roomId m)).
  { unfold no_dangling_consumer.
    destruct (leave_transports_frame peerId roomId m) as (_ & _ & -> & -> & _).
    exact H. }
  assert (H2 : no_dangling_consumer
                 (leave_producers peerId roomId (leave_transports peerId roomId m))).
  { unfold leave_producers. apply for_of_invariant; [|exact H1].
    intros k v acc Hacc.
    destruct (String.eqb (p_peerId v) peerId && String.eqb (p_roomId v) roomId);
      [now apply closeProducer_no_dangling|exact Hacc]. }
  set (m2 := leave_producers peerId roomId (leave_transports peerId roomId m)) in *.
  assert (H3 : no_dangling_consumer (leave_consumers peerId roomId m2)).
  { intros cid ci Hin. rewrite consumers_leave_consumers in Hin.
    apply In_sweep in Hin as [Hin _].
    destruct (leave_consumers_frame peerId roomId m2) as (_ & _ & _ & -> & _).
    now apply (H2 cid). }
  unfold no_dangling_consumer.
  destruct (room_remove_peer_frame peerId roomId (leave_consumers peerId roomId m2))
    as (_ & _ & -> & -> & _).
  exact H3.
Qed.

Lemma getOrCreateRouter_no_dangling e roomId s s' r :
  getOrCreateRouter e roomId s = (s', r) ->
  no_dangling_consumer (media s) -> no_dangling_consumer (media s').
Proof.
  intros G H. unfold no_dangling_consumer.
  destruct (getOrCreateRouter_frame e roomId s s' r G) as (_ & _ & _ & _ & -> & -> & _).
  exact H.
Qed.

Lemma handle_no_dangling e socket ev s :
  no_dangling_consumer (media s) -> no_dangling_consumer (media (handle e socket ev s)).
Proof.
  intros H.
  destruct ev as [|roomId|roomId|roomId direction|tid dtls|tid kind rtp roomId
                  |tid pid caps|cid|cid|pid roomId|]; unfold handle.
  - exact H.
  - rewrite on_join_video_room_eq.
    destruct (getOrCreateRouter e roomId
                (on_adapter (adapter_join socket (video_room roomId)) s))
      as [s2 [router|message]] eqn:G;
      apply getOrCreateRouter_no_dangling in G; auto.
  - rewrite on_leave_video_room_eq. now apply leavePeer_no_dangling.
  - rewrite on_create_transport_eq.
    destruct (getOrCreateRouter e roomId s) as [s1 [router|message]] eqn:G;
      apply getOrCreateRouter_no_dangling in G; auto.
    cbv zeta. now destruct (createWebRtcTransport_ e).
  - destruct (JsMap.get tid (transports (media s))) as [ti|] eqn:E.
    + now rewrite (on_connect_transport_found e _ tid dtls ti s E).
    + now rewrite (on_connect_transport_missing e _ tid dtls s E).
  - destruct (JsMap.get tid (transports (media s))) as [ti|] eqn:E.
    + destruct (produce e) as [pid|message] eqn:P.
      * rewrite (on_create_producer_accepted e _ tid kind rtp roomId ti pid s E P).
        cbv zeta. rewrite media_deliver, media_on_media.
        intros c ci Hin.
        rewrite consumers_room_add_peer in Hin. rewrite producers_room_add_peer.
        simpl in Hin |- *.
        destruct (String.eqb_spec pid (c_producerId ci)) as [<-|Hne].
        -- now rewrite get_set_eq.
        -- rewrite get_set_neq by exact Hne. now apply (H c).
      * now rewrite (on_create_producer_rejected e _ tid kind rtp roomId ti message s E P).
    + now rewrite (on_create_producer_missing e _ tid kind rtp roomId s E).
  - rewrite on_create_consumer_eq.
    destruct (JsMap.get tid (transports (media s))) as [ti|]; [|exact H].
    destruct (JsMap.get pid (producers (media s))) as [pi|] eqn:Ep; [|exact H].
    destruct (getOrCreateRouter e (t_roomId ti) s) as [s1 [router|message]] eqn:G;
      [|now apply getOrCreateRouter_no_dangling in G].
    pose proof (getOrCreateRouter_no_dangling _ _ _ _ _ G H) as H1.
    destruct (getOrCreateRouter_frame _ _ _ _ _ G) as (_ & _ & _ & _ & Hp & _).
    cbv zeta. destruct (canConsume e); [|exact H1].
    destruct (consume e) as [c|message]; [|exact H1].
    intros k v Hin. simpl in Hin |- *.
    apply In_set in Hin as [[= -> ->]|Hin].
    + simpl. rewrite Hp, Ep. discriminate.
    + now apply (H1 k).
  - rewrite on_resume_consumer_eq.
    now destruct (JsMap.get cid (consumers (media s))).
  - rewrite on_pause_consumer_eq.
    now destruct (JsMap.get cid (consumers (media s))).
  - rewrite on_close_producer_eq, media_emit, media_to_emit, media_on_media.
    now apply closeProducer_no_dangling.
  - unfold on_disconnect. cbv zeta.
    apply disconnect_cleanup_media_invariant; [|exact H].
    intros roomId m. apply leavePeer_no_dangling.
Qed.

(** X2. Along any run of the server (handlers running one at a time), no
    consumer outlives its producer: every consumer record refers to a
    producer that is in the producer table. *)
Theorem consumers_never_dangle
    (evs : list (Engine * string * ClientEvent)) (s : Server) :
  no_dangling_consumer (media s) -> no_dangling_consumer (media (run evs s)).
Proof.
  apply (run_invariant (fun s0 => no_dangling_consumer (media s0))).
  intros e socket ev s0. apply handle_no_dangling.
Qed.

Lemma consumers_never_dangle_witness :
  no_dangling_consumer (media booted) /\
  no_dangling_consumer
    (media (run [ (engine_ok "r1" "" "" "", "p1", Connection);
                  (engine_ok "r1" "t1" "" "", "p1", CreateTransport "A" None);
                  (engine_ok "r1" "" "prod1" "", "p1", CreateProducer "t1" "video" "rtp" "A");
                  (engine_ok "r1" "" "prod1" "c1", "p1", CreateConsumer "t1" "prod1" "caps");
                  (engine_ok "r1" "" "" "", "p1", CloseProducer "prod1" "A") ] booted)).
Proof.
  assert (H : no_dangling_consumer (media booted)) by (intros c ci []).
  split; [exact H|].
  exact (consumers_never_dangle _ booted H).
Defined.

(** ** What [leavePeer] reclaims *)

Lemma transport_of_false peerId roomId ti :
  transport_of peerId roomId ti = false <->
  ~ (t_peerId ti = peerId /\ t_roomId ti = roomId).
Proof.
  unfold transport_of.
  destruct (String.eqb_spec (t_peerId ti) peerId),
           (String.eqb_spec (t_roomId ti) roomId); simpl; intuition congruence.
Qed.

Lemma consumer_of_false peerId roomId ci :
  consumer_of peerId roomId ci = false <->
  ~ (c_peerId ci = peerId /\ c_roomId ci = roomId).
Proof.
  unfold consumer_of.
  destruct (String.eqb_spec (c_peerId ci) peerId),
           (String.eqb_spec (c_roomId ci) roomId); simpl; intuition congruence.
Qed.

Lemma engine_leave_transports peerId roomId m :
  engine (leave_transports peerId roomId m) =
  engine m ++
  map (fun kv => TransportClose (t_transport (snd kv)))
    (filter (fun kv => transport_of peerId roomId (snd kv)) (transports m)).
Proof.
  unfold leave_transports.
  rewrite (for_of_project engine
    (fun k v acc =>
       if transport_of peerId roomId v then acc ++ [TransportClose (t_transport v)]
       else acc)).
  - apply (fold_log (transport_of peerId roomId) (fun v => TransportClose (t_transport v))).
  - intros k v acc. unfold transport_of.
    now destruct (String.eqb (t_peerId v) peerId && String.eqb (t_roomId v) roomId).
Qed.

Lemma closeProducer_engine_extends producerId m :
  exists calls, engine (closeProducer producerId m) = engine m ++ calls.
Proof.
  destruct (JsMap.get producerId (producers m)) as [pi|] eqn:E.
  - rewrite (engine_closeProducer _ _ _ E). eexists. reflexivity.
  - rewrite closeProducer_absent by exact E. exists []. now rewrite app_nil_r.
Qed.

Lemma leave_producers_engine_extends peerId roomId m :
  exists calls, engine (leave_producers peerId roomId m) = engine m ++ calls.
Proof.
  unfold leave_producers.
  apply (for_of_invariant (fun acc => exists calls, engine acc = engine m ++ calls)).
  - intros k v acc [calls Hc].
    destruct (String.eqb (p_peerId v) peerId && String.eqb (p_roomId v) roomId);
      [|now exists calls].
    destruct (closeProducer_engine_extends k acc) as [more Hm].
    exists (calls ++ more). now rewrite Hm, Hc, app_assoc.
  - exists []. now rewrite app_nil_r.
Qed.

Lemma leave_consumers_engine_extends peerId roomId m :
  exists calls, engine (leave_consumers peerId roomId m) = engine m ++ calls.
Proof.
  unfold leave_consumers.
  apply (for_of_invariant (fun acc => exists calls, engine acc = engine m ++ calls)).
  - intros k v acc [calls Hc].
    destruct (String.eqb (c_peerId v) peerId && String.eqb (c_roomId v) roomId);
      [|now exists calls].
    exists (calls ++ [ConsumerClose (c_consumer v)]). simpl. now rewrite Hc, app_assoc.
  - exists []. now rewrite app_nil_r.
Qed.

Lemma room_remove_peer_engine peerId roomId m :
  engine (room_remove_peer peerId roomId m) =
  engine m ++
  match JsMap.get roomId (rooms m) with
  | Some room =>
      if (JsSet.size (JsSet.delete peerId (room_peers room)) =? 0)%nat
      then [RouterClose (router_id (room_router room))] else []
  | None => []
  end.
Proof.
  unfold room_remove_peer.
  destruct (JsMap.get roomId (rooms m)) as [room|]; [|now rewrite app_nil_r].
  destruct (JsSet.size (JsSet.delete peerId (room_peers room)) =? 0)%nat; simpl;
    [reflexivity|now rewrite app_nil_r].
Qed.

(** The three loops of [leavePeer] leave the room table alone. *)
Lemma rooms_before_room_remove_peer peerId roomId m :
  rooms (leave_consumers peerId roomId
           (leave_producers peerId roomId (leave_transports peerId roomId m))) = rooms m /\
  routers (leave_consumers peerId roomId
             (leave_producers peerId roomId (leave_transports peerId roomId m))) =
  routers m.
Proof.
  destruct (leave_consumers_frame peerId roomId
              (leave_producers peerId roomId (leave_transports peerId roomId m)))
    as (_ & -> & _ & _ & _ & -> & _).
  destruct (leave_producers_frame peerId roomId (leave_transports peerId roomId m))
    as (_ & -> & _ & _ & -> & _).
  destruct (leave_transports_frame peerId roomId m) as (_ & -> & _ & _ & _ & -> & _).
  now split.
Qed.

(** X3. A leave-video-room event reclaims what the peer holds in the room:
    no transport and no consumer of the peer in that room is left in the
    tables, every such transport has been closed on the engine, and the
    transports whose id no such record carries are kept. *)
Theorem leave_reclaims_transports_and_consumers
    (e : Engine) (socket roomId : string) (s : Server) :
  let s' := handle e socket (LeaveVideoRoom roomId) s in
  (forall tid ti, In (tid, ti) (transports (media s')) ->
     ~ (t_peerId ti = socket /\ t_roomId ti = roomId)) /\
  (forall cid ci, In (cid, ci) (consumers (media s')) ->
     ~ (c_peerId ci = socket /\ c_roomId ci = roomId)) /\
  (forall tid ti, In (tid, ti) (transports (media s)) ->
     t_peerId ti = socket -> t_roomId ti = roomId ->
     JsMap.get tid (transports (media s')) = None /\
     In (TransportClose (t_transport ti)) (engine (media s'))) /\
  (forall tid,
     (forall ti, In (tid, ti) (transports (media s)) ->
        ~ (t_peerId ti = socket /\ t_roomId ti = roomId)) ->
     JsMap.get tid (transports (media s')) = JsMap.get tid (transports (media s))).
Proof.
  intros s'. subst s'. unfold handle. rewrite on_leave_video_room_eq.
  rewrite media_emit, media_to_emit, media_on_media, media_on_adapter.
  split; [|split; [|split]].
  - intros tid ti Hin. rewrite transports_leavePeer in Hin.
    apply transport_of_false. now apply sweep_self_clean in Hin.
  - intros cid ci Hin. apply consumer_of_false.
    now apply consumers_leavePeer_clean in Hin.
  - intros tid ti Hin Hp Hr. split.
    + rewrite transports_leavePeer. apply get_None_of_not_In. intros v Hv.
      apply In_sweep in Hv as [_ Hall]. specialize (Hall ti Hin).
      apply transport_of_false in Hall. tauto.
    + unfold leavePeer. rewrite room_remove_peer_engine.
      destruct (leave_consumers_engine_extends socket roomId
                  (leave_producers socket roomId (leave_transports socket roomId (media s))))
        as [c3 ->].
      destruct (leave_producers_engine_extends socket roomId
                  (leave_transports socket roomId (media s))) as [c2 ->].
      rewrite engine_leave_transports.
      rewrite !in_app_iff. left. left. left. right.
      apply (in_map (fun kv => TransportClose (t_transport (snd kv))) _ (tid, ti)).
      apply filter_In. split; [exact Hin|].
      unfold transport_of. simpl. rewrite Hp, Hr. now rewrite !String.eqb_refl.
  - intros tid Hall. rewrite transports_leavePeer. apply sweep_keeps.
    intros v' Hv'. apply transport_of_false. now apply Hall.
Qed.

(** X4. The room at the end of a leave-video-room event. When no peer other
    than the leaver is in [room.peers] (also when the set is empty), the
    room and its router are dropped and the last call to the engine closes
    that router; otherwise the room stays with the leaver taken out of
    [room.peers], and its router stays. *)
Theorem leave_drops_room_without_other_producing_peer
    (e : Engine) (socket roomId : string) (room : RoomInfo) (s : Server) :
  JsMap.get roomId (rooms (media s)) = Some room ->
  let s' := handle e socket (LeaveVideoRoom roomId) s in
  (JsSet.delete socket (room_peers room) = [] ->
     JsMap.get roomId (rooms (media s')) = None /\
     JsMap.get roomId (routers (media s')) = None /\
     exists calls,
       engine (media s') =
       engine (media s) ++ calls ++ [RouterClose (router_id (room_router room))]) /\
  (JsSet.delete socket (room_peers room) <> [] ->
     JsMap.get roomId (rooms (media s')) =
       Some (mkRoomInfo (room_id room) (room_router room)
               (JsSet.delete socket (room_peers room)) (createdAt room)) /\
     routers (media s') = routers (media s)).
Proof.
  intros E s'. subst s'. unfold handle. rewrite on_leave_video_room_eq.
  rewrite media_emit, media_to_emit, media_on_media, media_on_adapter.
  destruct (rooms_before_room_remove_peer socket roomId (media s)) as [Hrooms Hrouters].
  unfold leavePeer.
  set (m3 := leave_consumers socket roomId
               (leave_producers socket roomId (leave_transports socket roomId (media s))))
    in *.
  split.
  - intros Hnil. rewrite room_remove_peer_engine. unfold room_remove_peer.
    rewrite Hrooms, E, Hnil. simpl.
    split; [apply get_delete_eq|]. split; [apply get_delete_eq|].
    unfold m3.
    destruct (leave_consumers_engine_extends socket roomId
                (leave_producers socket roomId (leave_transports socket roomId (media s))))
      as [c3 ->].
    destruct (leave_producers_engine_extends socket roomId
                (leave_transports socket roomId (media s))) as [c2 ->].
    rewrite engine_leave_transports.
    exists (map (fun kv => TransportClose (t_transport (snd kv)))
              (filter (fun kv => transport_of socket roomId (snd kv))
                 (transports (media s))) ++ c2 ++ c3).
    now rewrite <- !app_assoc.
  - intros Hne. unfold room_remove_peer. rewrite Hrooms, E.
    destruct (JsSet.delete socket (room_peers room)) as [|x xs] eqn:D; [contradiction|].
    simpl. rewrite Hrooms. split; [apply get_set_eq|exact Hrouters].
Qed.

Lemma leave_drops_room_without_other_producing_peer_witness :
  JsMap.get "A" (rooms (media p1_joined)) =
    Some (mkRoomInfo "A" (mkRouter "r1" "caps") [] 0) /\
  JsMap.get "A" (rooms (media (handle (engine_ok "r1" "" "" "") "p1" (LeaveVideoRoom "A")
                                 p1_joined))) = None.
Proof.
  split; [reflexivity|].
  exact (proj1 (proj1 (leave_drops_room_without_other_producing_peer
                         (engine_ok "r1" "" "" "") "p1" "A"
                         (mkRoomInfo "A" (mkRouter "r1" "caps") [] 0) p1_joined eq_refl)
                  eq_refl)).
Defined.

(** X5. [leavePeer] is idempotent: run again for the same peer and room, it
    changes no table and calls the engine no more. *)
Theorem leavePeer_twice_is_leavePeer_once (peerId roomId : string) (m : MediaRouter) :
  leavePeer peerId roomId (leavePeer peerId roomId m) = leavePeer peerId roomId m.
Proof. apply leavePeer_idempotent. Qed.

(** ** [getRoomProducers] and the join handler *)


Lemma filter_app_singleton_self socket (members : list string) :
  filter (fun x => negb (String.eqb x socket)) (members ++ [socket]) =
  filter (fun x => negb (String.eqb x socket)) members.
Proof.
  rewrite filter_app. simpl. rewrite String.eqb_refl. simpl. apply app_nil_r.
Qed.

(** Joining a room does not change whom [socket.to(room)] reaches. *)
Lemma recipients_adapter_join socket room a :
  recipients socket room (adapter_join socket room a) = recipients socket room a.
Proof.
  unfold adapter_join, recipients.
  destruct (JsMap.get room a) as [members|] eqn:E.
  - rewrite get_set_eq. unfold JsSet.add.
    destruct (JsSet.has socket members); [reflexivity|apply filter_app_singleton_self].
  - rewrite get_set_eq. simpl. now rewrite String.eqb_refl.
Qed.

Lemma has_after_adapter_join socket room a :
  exists members,
    JsMap.get room (adapter_join socket room a) = Some members /\
    JsSet.has socket members = true.
Proof.
  unfold adapter_join.
  destruct (JsMap.get room a) as [members|] eqn:E.
  - exists (JsSet.add socket members). split; [apply get_set_eq|].
    unfold JsSet.add. destruct (JsSet.has socket members) eqn:H; [exact H|].
    unfold JsSet.has. rewrite existsb_app. simpl.
    rewrite String.eqb_refl. now rewrite orb_true_r.
  - exists [socket]. split; [apply get_set_eq|].
    unfold JsSet.has. simpl. now rewrite String.eqb_refl.
Qed.

(** X7. A join-video-room event for a room that has a router changes
    nothing in the media router: the socket enters the Socket.IO room, is
    answered video-room-joined with the router's capabilities and the
    producers of the room it does not own, and every other member of the
    room is sent one new-peer-joined. A socket that is already a member is
    answered in the same way. *)
Theorem join_existing_room
    (e : Engine) (socket roomId : string) (router : Router) (s : Server) :
  JsMap.get roomId (routers (media s)) = Some router ->
  let s' := handle e socket (JoinVideoRoom roomId) s in
  media s' = media s /\
  adapter s' = adapter_join socket (video_room roomId) (adapter s) /\
  sent s' =
    sent s ++
    [(socket, VideoRoomJoined (rtpCapabilities router)
                (getRoomProducers roomId (Some socket) (media s)))] ++
    map (fun r => (r, NewPeerJoined socket))
      (recipients socket (video_room roomId) (adapter s)).
Proof.
  intros E s'. subst s'. unfold handle. rewrite on_join_video_room_eq.
  destruct (getOrCreateRouter_cases e roomId
              (on_adapter (adapter_join socket (video_room roomId)) s))
    as [(router' & E' & ->)|[(E' & _)|[(w & ws & msg & E' & _)|
        (w & ws & router' & E' & _)]]];
    rewrite media_on_adapter, E in E'; try discriminate.
  injection E' as <-.
  split; [reflexivity|]. split; [reflexivity|].
  unfold to_emit, emit, deliver, on_adapter. simpl.
  rewrite recipients_adapter_join. now rewrite <- app_assoc.
Qed.

Lemma join_existing_room_witness :
  JsMap.get "A" (routers (media p2_produces)) = Some (mkRouter "r1" "caps") /\
  sent (handle (engine_ok "r9" "" "" "") "p3" (JoinVideoRoom "A") p2_produces) =
    sent p2_produces ++
    [("p3", VideoRoomJoined "caps" [mkProducerAd "prod1" "p2" "video"]);
     ("p1", NewPeerJoined "p3"); ("p2", NewPeerJoined "p3")].
Proof.
  split; [reflexivity|].
  exact (proj2 (proj2 (join_existing_room (engine_ok "r9" "" "" "") "p3" "A"
                         (mkRouter "r1" "caps") p2_produces eq_refl))).
Defined.

(** X8. A join-video-room event for a room without router, when there is
    no worker or the engine refuses to create the router, is answered by
    one video-room-error with error "Failed to join video room"; no table
    changes, but the socket stays in the Socket.IO room it entered before
    the failure. *)
Theorem failed_join_keeps_socket_in_room
    (e : Engine) (socket roomId : string) (s : Server) :
  JsMap.get roomId (routers (media s)) = None ->
  workers (media s) = [] \/ (exists message, createRouter e = Throw message) ->
  let s' := handle e socket (JoinVideoRoom roomId) s in
  (exists details,
     sent s' = sent s ++ [(socket, VideoRoomError "Failed to join video room" details)]) /\
  tables (media s') = tables (media s) /\
  exists members,
    JsMap.get (video_room roomId) (adapter s') = Some members /\
    JsSet.has socket members = true.
Proof.
  intros E F s'. subst s'. unfold handle. rewrite on_join_video_room_eq.
  destruct (getOrCreateRouter_cases e roomId
              (on_adapter (adapter_join socket (video_room roomId)) s))
    as [(router' & E' & ->)|[(E' & W & ->)|[(w & ws & msg & E' & W & C & ->)|
        (w & ws & router' & E' & W & C & ->)]]];
    rewrite media_on_adapter in *.
  - rewrite E in E'. discriminate.
  - split; [now eexists|]. split; [reflexivity|].
    apply has_after_adapter_join.
  - split; [now eexists|]. split; [reflexivity|].
    apply has_after_adapter_join.
  - destruct F as [F|[message F]]; [rewrite F in W; discriminate|].
    rewrite F in C. discriminate.
Qed.

Lemma failed_join_keeps_socket_in_room_witness :
  JsMap.get "A" (routers (media booted)) = None /\
  (exists details,
     sent (handle (engine_rejecting "no router") "p1" (JoinVideoRoom "A") booted) =
     sent booted ++ [("p1", VideoRoomError "Failed to join video room" details)]) /\
  tables (media (handle (engine_rejecting "no router") "p1" (JoinVideoRoom "A") booted)) =
  tables (media booted).
Proof.
  split; [reflexivity|].
  assert (F : exists message, createRouter (engine_rejecting "no router") = Throw message)
    by (now exists "no router").
  pose proof (failed_join_keeps_socket_in_room (engine_rejecting "no router") "p1" "A"
                booted eq_refl (or_intror F)) as H.
  destruct H as (H1 & H2 & _).
  exact (conj H1 H2).
Defined.

(** X9. A join-video-room event for a room without router, with a worker
    and the engine creating the router, installs that router and a room
    record whose member set is empty (the joiner is not added to
    [room.peers]), and answers video-room-joined with the capabilities of
    the new router. *)
Theorem join_fresh_room_creates_empty_room
    (e : Engine) (socket roomId worker : string) (ws : list string) (router : Router)
    (s : Server) :
  JsMap.get roomId (routers (media s)) = None ->
  workers (media s) = worker :: ws ->
  createRouter e = Ok router ->
  let s' := handle e socket (JoinVideoRoom roomId) s in
  JsMap.get roomId (routers (media s')) = Some router /\
  JsMap.get roomId (rooms (media s')) = Some (mkRoomInfo roomId router [] (now e)) /\
  engine (media s') = engine (media s) ++ [WorkerCreateRouter worker] /\
  sent s' =
    sent s ++
    [(socket, VideoRoomJoined (rtpCapabilities router)
                (getRoomProducers roomId (Some socket) (media s)))] ++
    map (fun r => (r, NewPeerJoined socket))
      (recipients socket (video_room roomId) (adapter s)).
Proof.
  intros E W C s'. subst s'. unfold handle. rewrite on_join_video_room_eq.
  destruct (getOrCreateRouter_cases e roomId
              (on_adapter (adapter_join socket (video_room roomId)) s))
    as [(router' & E' & ->)|[(E' & W' & ->)|[(w & ws' & msg & E' & W' & C' & ->)|
        (w & ws' & router' & E' & W' & C' & ->)]]];
    rewrite media_on_adapter in *.
  - rewrite E in E'. discriminate.
  - rewrite W in W'. discriminate.
  - rewrite C in C'. discriminate.
  - rewrite C in C'. injection C' as <-. rewrite W in W'. injection W' as <- <-.
    unfold to_emit, emit, deliver, on_media, on_adapter. simpl.
    split; [apply get_set_eq|]. split; [apply get_set_eq|]. split; [reflexivity|].
    rewrite recipients_adapter_join. now rewrite <- app_assoc.
Qed.

Lemma join_fresh_room_creates_empty_room_witness :
  JsMap.get "A" (routers (media booted)) = None /\
  workers (media booted) = ["w0"] /\
  JsMap.get "A" (rooms (media (handle (engine_ok "r1" "" "" "") "p1" (JoinVideoRoom "A")
                                 booted))) =
    Some (mkRoomInfo "A" (mkRouter "r1" "caps") [] 0).
Proof.
  split; [reflexivity|]. split; [reflexivity|].
  exact (proj1 (proj2 (join_fresh_room_creates_empty_room (engine_ok "r1" "" "" "")
                         "p1" "A" "w0" [] (mkRouter "r1" "caps") booted
                         eq_refl eq_refl eq_refl))).
Defined.

(** ** create-consumer, resume-consumer and pause-consumer *)

(** X10. A create-consumer event naming a transport or a producer that is
    not in its table is answered by one consumer-error with error "Failed
    to create consumer"; the engine is not called and nothing changes. *)
Theorem create_consumer_with_unknown_reference
    (e : Engine) (socket transportId producerId : string) (rtpCaps : Json) (s : Server) :
  JsMap.get transportId (transports (media s)) = None \/
  JsMap.get producerId (producers (media s)) = None ->
  let s' := handle e socket (CreateConsumer transportId producerId rtpCaps) s in
  media s' = media s /\ adapter s' = adapter s /\
  sent s' =
    sent s ++
    [(socket,
      ConsumerError "Failed to create consumer"
        (match JsMap.get transportId (transports (media s)) with
         | None => "Transport " ++ transportId ++ " not found"
         | Some _ => "Producer " ++ producerId ++ " not found"
         end)%string)].
Proof.
  intros H s'. subst s'. unfold handle. rewrite on_create_consumer_eq.
  destruct (JsMap.get transportId (transports (media s))) as [ti|]; [|now repeat split].
  destruct H as [H|H]; [discriminate|]. rewrite H. now repeat split.
Qed.

Lemma create_consumer_with_unknown_reference_witness :
  JsMap.get "ghost" (producers (media p1_consumes)) = None /\
  sent (handle (engine_ok "r1" "" "" "c2") "p1" (CreateConsumer "t1" "ghost" "caps")
          p1_consumes) =
    sent p1_consumes ++
    [("p1", ConsumerError "Failed to create consumer" "Producer ghost not found")].
Proof.
  split; [reflexivity|].
  exact (proj2 (proj2 (create_consumer_with_unknown_reference (engine_ok "r1" "" "" "c2")
                         "p1" "t1" "ghost" "caps" p1_consumes (or_intror eq_refl)))).
Defined.

(** X11. A create-consumer event on known transport and producer, in a room
    that has its router, when the router cannot consume the producer with
    the given capabilities: one consumer-error with details "Cannot consume
    producer", the consume call is not made, no table changes. *)
Theorem create_consumer_that_cannot_consume
    (e : Engine) (socket transportId producerId : string) (rtpCaps : Json)
    (transportInfo : TransportInfo) (producerInfo : ProducerInfo) (router : Router)
    (s : Server) :
  JsMap.get transportId (transports (media s)) = Some transportInfo ->
  JsMap.get producerId (producers (media s)) = Some producerInfo ->
  JsMap.get (t_roomId transportInfo) (routers (media s)) = Some router ->
  canConsume e = false ->
  let s' := handle e socket (CreateConsumer transportId producerId rtpCaps) s in
  tables (media s') = tables (media s) /\
  engine (media s') = engine (media s) ++ [RouterCanConsume (router_id router) producerId] /\
  sent s' =
    sent s ++
    [(socket, ConsumerError "Failed to create consumer" "Cannot consume producer")].
Proof.
  intros Et Ep Er Hc s'. subst s'. unfold handle. rewrite on_create_consumer_eq.
  rewrite Et, Ep.
  destruct (getOrCreateRouter_cases e (t_roomId transportInfo) s)
    as [(router' & E' & ->)|[(E' & _)|[(w & ws & msg & E' & _)|
        (w & ws & router' & E' & _)]]];
    rewrite Er in E'; try discriminate.
  injection E' as <-. cbv zeta. rewrite Hc. now repeat split.
Qed.

Lemma create_consumer_that_cannot_consume_witness :
  JsMap.get "t1" (transports (media p1_consumes)) =
    Some (mkTransportInfo "t1" "p1" "A" "recv") /\
  sent (handle (engine_rejecting "x") "p1" (CreateConsumer "t1" "prod1" "caps") p1_consumes) =
    sent p1_consumes ++
    [("p1", ConsumerError "Failed to create consumer" "Cannot consume producer")].
Proof.
  split; [reflexivity|].
  exact (proj2 (proj2 (create_consumer_that_cannot_consume (engine_rejecting "x")
                         "p1" "t1" "prod1" "caps" (mkTransportInfo "t1" "p1" "A" "recv")
                         (mkProducerInfo "prod1" "p2" "A" "video") (mkRouter "r1" "caps")
                         p1_consumes eq_refl eq_refl eq_refl eq_refl))).
Defined.

(** X12. A create-consumer event that succeeds (known transport and
    producer, room with router, consumable, consume accepted) records the
    consumer under the id the engine returns, with the peer and room of the
    transport and the requested producer, keeps the other consumers, and
    sends one consumer-created to the issuer and nothing to anybody else. *)
Theorem create_consumer_records_and_replies
    (e : Engine) (socket transportId producerId : string) (rtpCaps : Json)
    (transportInfo : TransportInfo) (producerInfo : ProducerInfo) (router : Router)
    (consumer : ConsumerParams) (s : Server) :
  JsMap.get transportId (transports (media s)) = Some transportInfo ->
  JsMap.get producerId (producers (media s)) = Some producerInfo ->
  JsMap.get (t_roomId transportInfo) (routers (media s)) = Some router ->
  canConsume e = true ->
  consume e = Ok consumer ->
  let s' := handle e socket (CreateConsumer transportId producerId rtpCaps) s in
  JsMap.get (cp_id consumer) (consumers (media s')) =
    Some (mkConsumerInfo (cp_id consumer) (t_peerId transportInfo)
            (t_roomId transportInfo) producerId) /\
  (forall other, other <> cp_id consumer ->
     JsMap.get other (consumers (media s')) = JsMap.get other (consumers (media s))) /\
  engine (media s') =
    engine (media s) ++
    [RouterCanConsume (router_id router) producerId;
     TransportConsume (t_transport transportInfo) producerId] /\
  sent s' =
    sent s ++
    [(socket,
      ConsumerCreated
        (mkConsumerParams (cp_id consumer) producerId (cp_kind consumer)
           (cp_rtpParameters consumer)))].
Proof.
  intros Et Ep Er Hc Hk s'. subst s'. unfold handle. rewrite on_create_consumer_eq.
  rewrite Et, Ep.
  destruct (getOrCreateRouter_cases e (t_roomId transportInfo) s)
    as [(router' & E' & ->)|[(E' & _)|[(w & ws & msg & E' & _)|
        (w & ws & router' & E' & _)]]];
    rewrite Er in E'; try discriminate.
  injection E' as <-. cbv zeta. rewrite Hc, Hk.
  unfold emit, deliver, on_media. simpl.
  split; [apply get_set_eq|].
  split; [intros other Hne; apply get_set_neq; congruence|].
  split; [now rewrite <- app_assoc|reflexivity].
Qed.

Lemma create_consumer_records_and_replies_witness :
  JsMap.get "prod1" (producers (media p1_consumes)) =
    Some (mkProducerInfo "prod1" "p2" "A" "video") /\
  JsMap.get "c2"
    (consumers (media (handle (engine_ok "r1" "" "prod1" "c2") "p1"
                         (CreateConsumer "t1" "prod1" "caps") p1_consumes))) =
    Some (mkConsumerInfo "c2" "p1" "A" "prod1").
Proof.
  split; [reflexivity|].
  exact (proj1 (create_consumer_records_and_replies (engine_ok "r1" "" "prod1" "c2")
                  "p1" "t1" "prod1" "caps" (mkTransportInfo "t1" "p1" "A" "recv")
                  (mkProducerInfo "prod1" "p2" "A" "video") (mkRouter "r1" "caps")
                  (mkConsumerParams "c2" "prod1" "video" "rtp")
                  p1_consumes eq_refl eq_refl eq_refl eq_refl eq_refl)).
Defined.

(** X13. resume-consumer and pause-consumer never change a registry table
    or a room, and send exactly one event, to the issuer: consumer-resumed
    or consumer-paused when the consumer is known and the engine accepts,
    consumer-error otherwise; for an unknown consumer the engine is not
    called. *)
Theorem resume_and_pause_change_no_table
    (e : Engine) (socket consumerId : string) (s : Server) :
  (let s' := handle e socket (ResumeConsumer consumerId) s in
   tables (media s') = tables (media s) /\ adapter s' = adapter s /\
   sent s' =
     sent s ++
     [(socket,
       match JsMap.get consumerId (consumers (media s)), resume e with
       | Some _, Ok _ => ConsumerResumed consumerId
       | Some _, Throw message => ConsumerError "Failed to resume consumer" message
       | None, _ =>
           ConsumerError "Failed to resume consumer"
             ("Consumer " ++ consumerId ++ " not found")%string
       end)] /\
   (JsMap.get consumerId (consumers (media s)) = None -> media s' = media s)) /\
  (let s' := handle e socket (PauseConsumer consumerId) s in
   tables (media s') = tables (media s) /\ adapter s' = adapter s /\
   sent s' =
     sent s ++
     [(socket,
       match JsMap.get consumerId (consumers (media s)), pause e with
       | Some _, Ok _ => ConsumerPaused consumerId
       | Some _, Throw message => ConsumerError "Failed to pause consumer" message
       | None, _ =>
           ConsumerError "Failed to pause consumer"
             ("Consumer " ++ consumerId ++ " not found")%string
       end)] /\
   (JsMap.get consumerId (consumers (media s)) = None -> media s' = media s)).
Proof.
  split; intros s'; subst s'; unfold handle.
  - rewrite on_resume_consumer_eq.
    destruct (JsMap.get consumerId (consumers (media s))) as [ci|].
    + repeat split; discriminate.
    + now repeat split.
  - rewrite on_pause_consumer_eq.
    destruct (JsMap.get consumerId (consumers (media s))) as [ci|].
    + repeat split; discriminate.
    + now repeat split.
Qed.

(** ** create-transport *)

(** X14. A create-transport event for a room that has its router, when the
    engine creates the transport, records it under the engine's id with the
    issuing socket as peer, the room, and the direction (["send"] when the
    payload has none), keeps the other transports, and answers
    transport-created with the direction as it was sent. Neither room
    membership of the issuer nor an earlier transport of the same direction
    is looked at. *)
Theorem create_transport_records_transport
    (e : Engine) (socket roomId : string) (direction : option string) (router : Router)
    (transport : TransportParams) (s : Server) :
  JsMap.get roomId (routers (media s)) = Some router ->
  createWebRtcTransport_ e = Ok transport ->
  let s' := handle e socket (CreateTransport roomId direction) s in
  JsMap.get (tp_id transport) (transports (media s')) =
    Some (mkTransportInfo (tp_id transport) socket roomId
            (match direction with Some d => d | None => "send" end)) /\
  (forall other, other <> tp_id transport ->
     JsMap.get other (transports (media s')) = JsMap.get other (transports (media s))) /\
  engine (media s') =
    engine (media s) ++ [RouterCreateWebRtcTransport (router_id router)] /\
  sent s' = sent s ++ [(socket, TransportCreated direction transport)].
Proof.
  intros Er Ht s'. subst s'. unfold handle. rewrite on_create_transport_eq.
  destruct (getOrCreateRouter_cases e roomId s)
    as [(router' & E' & ->)|[(E' & _)|[(w & ws & msg & E' & _)|
        (w & ws & router' & E' & _)]]];
    rewrite Er in E'; try discriminate.
  injection E' as <-. cbv zeta. rewrite Ht.
  unfold emit, deliver, on_media. simpl.
  split; [apply get_set_eq|].
  split; [intros other Hne; apply get_set_neq; congruence|].
  now split.
Qed.

Lemma create_transport_records_transport_witness :
  JsMap.get "A" (routers (media two_joined)) = Some (mkRouter "r1" "caps") /\
  JsMap.get "t9"
    (transports (media (handle (engine_ok "r1" "t9" "" "") "p1" (CreateTransport "A" None)
                          two_joined))) =
    Some (mkTransportInfo "t9" "p1" "A" "send").
Proof.
  split; [reflexivity|].
  exact (proj1 (create_transport_records_transport (engine_ok "r1" "t9" "" "") "p1" "A"
                  None (mkRouter "r1" "caps")
                  (mkTransportParams "t9" "ice" "candidates" "dtls")
                  two_joined eq_refl eq_refl)).
Defined.

(** X15. A create-transport event for a room that does not exist is served
    without any join: the router and the room record (with no member) are
    created first, then the transport. *)
Theorem create_transport_creates_missing_room
    (e : Engine) (socket roomId worker : string) (ws : list string)
    (direction : option string) (router : Router) (transport : TransportParams)
    (s : Server) :
  JsMap.get roomId (routers (media s)) = None ->
  workers (media s) = worker :: ws ->
  createRouter e = Ok router ->
  createWebRtcTransport_ e = Ok transport ->
  let s' := handle e socket (CreateTransport roomId direction) s in
  JsMap.get roomId (routers (media s')) = Some router /\
  JsMap.get roomId (rooms (media s')) = Some (mkRoomInfo roomId router [] (now e)) /\
  JsMap.get (tp_id transport) (transports (media s')) =
    Some (mkTransportInfo (tp_id transport) socket roomId
            (match direction with Some d => d | None => "send" end)) /\
  adapter s' = adapter s /\
  sent s' = sent s ++ [(socket, TransportCreated direction transport)].
Proof.
  intros Er W C Ht s'. subst s'. unfold handle. rewrite on_create_transport_eq.
  destruct (getOrCreateRouter_cases e roomId s)
    as [(router' & E' & ->)|[(E' & W' & ->)|[(w & ws' & msg & E' & W' & C' & ->)|
        (w & ws' & router' & E' & W' & C' & ->)]]].
  - rewrite Er in E'. discriminate.
  - rewrite W in W'. discriminate.
  - rewrite C in C'. discriminate.
  - rewrite C in C'. injection C' as <-. cbv zeta. rewrite Ht.
    unfold emit, deliver, on_media. simpl.
    split; [apply get_set_eq|]. split; [apply get_set_eq|].
    split; [apply get_set_eq|]. now split.
Qed.

Lemma create_transport_creates_missing_room_witness :
  JsMap.get "B" (routers (media two_joined)) = None /\
  JsMap.get "B"
    (rooms (media (handle (engine_ok "r2" "t9" "" "") "p1" (CreateTransport "B" None)
                     two_joined))) =
    Some (mkRoomInfo "B" (mkRouter "r2" "caps") [] 0).
Proof.
  split; [reflexivity|].
  exact (proj1 (proj2 (create_transport_creates_missing_room (engine_ok "r2" "t9" "" "")
                         "p1" "B" "w0" [] None (mkRouter "r2" "caps")
                         (mkTransportParams "t9" "ice" "candidates" "dtls")
                         two_joined eq_refl eq_refl eq_refl eq_refl))).
Defined.

(** ** Room names *)

Lemma substring_all (s : string) : String.substring 0 (String.length s) s = s.
Proof. induction s as [|c s IH]; simpl; [reflexivity|now rewrite IH]. Qed.

(** X16. The room name the handlers build for a room id is recognised by
    the disconnect handler and decoded back to that id, whatever the id
    (also when the id itself contains ["video-"]). *)
Theorem video_room_name_round_trip (roomId : string) :
  String.prefix "video-" (video_room roomId) = true /\
  replace_first "video-" "" (video_room roomId) = roomId.
Proof.
  assert (P : forall s, String.prefix "" s = true) by (now destruct s).
  unfold video_room. split.
  - simpl. apply P.
  - simpl. rewrite P. simpl. rewrite Nat.sub_0_r. apply substring_all.
Qed.

(** ** Disconnect *)



(** ** The [newProducer] listeners *)

Lemma listeners_room_add_peer roomId peerId m :
  listeners (room_add_peer roomId peerId m) = listeners m.
Proof. unfold room_add_peer. now destruct (JsMap.get roomId (rooms m)). Qed.

Lemma listeners_leavePeer peerId roomId m :
  listeners (leavePeer peerId roomId m) = listeners m.
Proof.
  unfold leavePeer.
  destruct (room_remove_peer_frame peerId roomId
    (leave_consumers peerId roomId
       (leave_producers peerId roomId (leave_transports peerId roomId m))))
    as (_ & _ & _ & _ & _ & ->).
  destruct (leave_consumers_frame peerId roomId
    (leave_producers peerId roomId (leave_transports peerId roomId m)))
    as (_ & _ & _ & _ & _ & _ & ->).
  destruct (leave_producers_frame peerId roomId (leave_transports peerId roomId m))
    as (_ & _ & _ & _ & _ & ->).
  now destruct (leave_transports_frame peerId roomId m) as (_ & _ & _ & _ & _ & _ & ->).
Qed.

(** X18. The [newProducer] listener a socket registers when it connects is
    never removed: a connection appends one listener, and no other event,
    disconnect included, changes the list of listeners. *)
Theorem listeners_are_never_removed
    (e : Engine) (socket : string) (ev : ClientEvent) (s : Server) :
  listeners (media (handle e socket ev s)) =
  match ev with
  | Connection => listeners (media s) ++ [socket]
  | _ => listeners (media s)
  end.
Proof.
  destruct ev as [|roomId|roomId|roomId direction|tid dtls|tid kind rtp roomId
                  |tid pid caps|cid|cid|pid roomId|]; unfold handle.
  - reflexivity.
  - rewrite on_join_video_room_eq.
    destruct (getOrCreateRouter e roomId
                (on_adapter (adapter_join socket (video_room roomId)) s))
      as [s2 [router|message]] eqn:G;
      apply getOrCreateRouter_frame in G as (_ & _ & _ & _ & _ & _ & _ & G); exact G.
  - rewrite on_leave_video_room_eq. apply listeners_leavePeer.
  - rewrite on_create_transport_eq.
    destruct (getOrCreateRouter e roomId s) as [s1 [router|message]] eqn:G;
      apply getOrCreateRouter_frame in G as (_ & _ & _ & _ & _ & _ & _ & G);
      [|exact G].
    cbv zeta. destruct (createWebRtcTransport_ e); exact G.
  - destruct (JsMap.get tid (transports (media s))) as [ti|] eqn:E.
    + now rewrite (on_connect_transport_found e _ tid dtls ti s E).
    + now rewrite (on_connect_transport_missing e _ tid dtls s E).
  - destruct (JsMap.get tid (transports (media s))) as [ti|] eqn:E.
    + destruct (produce e) as [pid|message] eqn:P.
      * rewrite (on_create_producer_accepted e _ tid kind rtp roomId ti pid s E P).
        cbv zeta. rewrite media_deliver, media_on_media.
        now rewrite listeners_room_add_peer.
      * now rewrite (on_create_producer_rejected e _ tid kind rtp roomId ti message s E P).
    + now rewrite (on_create_producer_missing e _ tid kind rtp roomId s E).
  - rewrite on_create_consumer_eq.
    destruct (JsMap.get tid (transports (media s))) as [ti|]; [|reflexivity].
    destruct (JsMap.get pid (producers (media s))); [|reflexivity].
    destruct (getOrCreateRouter e (t_roomId ti) s) as [s1 [router|message]] eqn:G;
      apply getOrCreateRouter_frame in G as (_ & _ & _ & _ & _ & _ & _ & G);
      [|exact G].
    cbv zeta. destruct (canConsume e); [|exact G].
    destruct (consume e); exact G.
  - rewrite on_resume_consumer_eq.
    now destruct (JsMap.get cid (consumers (media s))).
  - rewrite on_pause_consumer_eq.
    now destruct (JsMap.get cid (consumers (media s))).
  - rewrite on_close_producer_eq, media_emit, media_to_emit, media_on_media.
    now destruct (closeProducer_frame pid (media s)) as (_ & _ & _ & _ & _ & ->).
  - unfold on_disconnect. cbv zeta.
    apply (disconnect_cleanup_media_invariant
             (fun m => listeners m = listeners (media s))); [|reflexivity].
    intros roomId m Hm. now rewrite listeners_leavePeer.
Qed.

(** ** close-producer on the states of a run *)

(** X19. In a state where no consumer dangles (every state of a run,
    by X2), a close-producer event for any producer id, known or not,
    leaves no consumer record referring to that id. *)
Theorem close_producer_leaves_no_reference
    (e : Engine) (socket producerId roomId : string) (s : Server) :
  no_dangling_consumer (media s) ->
  forall cid ci,
    In (cid, ci) (consumers (media (handle e socket (CloseProducer producerId roomId) s))) ->
    c_producerId ci <> producerId.
Proof.
  intros H cid ci Hin. unfold handle in Hin.
  rewrite on_close_producer_eq, media_emit, media_to_emit, media_on_media in Hin.
  destruct (JsMap.get producerId (producers (media s))) as [pi|] eqn:E.
  - rewrite (consumers_closeProducer _ _ _ E) in Hin.
    apply sweep_self_clean in Hin. unfold consumes in Hin.
    now apply String.eqb_neq.
  - rewrite closeProducer_absent in Hin by exact E.
    intros Heq. apply (H cid ci Hin). now rewrite Heq.
Qed.

Lemma close_producer_leaves_no_reference_witness :
  no_dangling_consumer (media p1_consumes) /\
  (forall cid ci,
     In (cid, ci)
       (consumers (media (handle (engine_ok "r1" "" "" "") "p2" (CloseProducer "prod1" "A")
                            p1_consumes))) ->
     c_producerId ci <> "prod1").
Proof.
  assert (H : no_dangling_consumer (media p1_consumes)).
  { intros c ci [[= <- <-]|[]]. discriminate. }
  split; [exact H|].
  exact (close_producer_leaves_no_reference (engine_ok "r1" "" "" "") "p2" "prod1" "A"
           p1_consumes H).
Defined.

(** ** Replies *)

Lemma sent_emit socket ev s : sent (emit socket ev s) = sent s ++ [(socket, ev)].
Proof. reflexivity. Qed.

Lemma sent_to_emit socket room ev s :
  sent (to_emit socket room ev s) =
  sent s ++ map (fun r => (r, ev)) (recipients socket room (adapter s)).
Proof. reflexivity. Qed.

Lemma sent_on_adapter f s : sent (on_adapter f s) = sent s.
Proof. reflexivity. Qed.

Ltac one_reply :=
  rewrite ?sent_emit, ?sent_to_emit, ?sent_emit, ?sent_on_media, ?sent_on_adapter;
  rewrite ?received_app, ?received_own_broadcast, ?received_self, ?app_nil_r;
  eexists; reflexivity.

(** X20. Every event other than create-producer (and the connection and
    disconnection of the socket) brings its issuer exactly one event in
    return, a success or an error, and none of its own fan-out. *)
Theorem issuer_receives_exactly_one_reply
    (e : Engine) (socket : string) (ev : ClientEvent) (s : Server) :
  single_reply ev = true ->
  exists reply,
    received socket (sent (handle e socket ev s)) = received socket (sent s) ++ [reply].
Proof.
  destruct ev as [|roomId|roomId|roomId direction|tid dtls|tid kind rtp roomId
                  |tid pid caps|cid|cid|pid roomId|]; try discriminate;
    intros _; unfold handle.
  - rewrite on_join_video_room_eq.
    destruct (getOrCreateRouter e roomId
                (on_adapter (adapter_join socket (video_room roomId)) s))
      as [s2 [router|message]] eqn:G;
      apply getOrCreateRouter_frame in G as (_ & G & _);
      rewrite ?sent_to_emit, ?sent_emit, G; one_reply.
  - rewrite sent_leave_video_room. one_reply.
  - rewrite on_create_transport_eq.
    destruct (getOrCreateRouter e roomId s) as [s1 [router|message]] eqn:G;
      apply getOrCreateRouter_frame in G as (_ & G & _).
    + cbv zeta. destruct (createWebRtcTransport_ e);
        rewrite sent_emit, ?sent_on_media, G; one_reply.
    + rewrite sent_emit, G. one_reply.
  - destruct (JsMap.get tid (transports (media s))) as [ti|] eqn:E.
    + rewrite (on_connect_transport_found e _ tid dtls ti s E). one_reply.
    + rewrite (on_connect_transport_missing e _ tid dtls s E). one_reply.
  - rewrite on_create_consumer_eq.
    destruct (JsMap.get tid (transports (media s))) as [ti|]; [|one_reply].
    destruct (JsMap.get pid (producers (media s))); [|one_reply].
    destruct (getOrCreateRouter e (t_roomId ti) s) as [s1 [router|message]] eqn:G;
      apply getOrCreateRouter_frame in G as (_ & G & _).
    + cbv zeta. destruct (canConsume e).
      * destruct (consume e); rewrite sent_emit, ?sent_on_media, G; one_reply.
      * rewrite sent_emit, ?sent_on_media, G. one_reply.
    + rewrite sent_emit, G. one_reply.
  - rewrite on_resume_consumer_eq.
    destruct (JsMap.get cid (consumers (media s))); one_reply.
  - rewrite on_pause_consumer_eq.
    destruct (JsMap.get cid (consumers (media s))); one_reply.
  - rewrite on_close_producer_eq. one_reply.
Qed.

Lemma issuer_receives_exactly_one_reply_witness :
  single_reply (JoinVideoRoom "A") = true /\
  exists reply,
    received "p3" (sent (handle (engine_ok "r1" "" "" "") "p3" (JoinVideoRoom "A")
                           p2_produces)) =
    received "p3" (sent p2_produces) ++ [reply].
Proof.
  split; [reflexivity|].
  exact (issuer_receives_exactly_one_reply (engine_ok "r1" "" "" "") "p3"
           (JoinVideoRoom "A") p2_produces eq_refl).
Defined.

(** ** The fan-out of create-producer *)

Lemma In_received q ev (ds : list Delivery) : In (q, ev) ds -> In ev (received q ds).
Proof.
  intros H. unfold received.
  apply (in_map snd _ (q, ev)). apply filter_In. split; [exact H|].
  simpl. apply String.eqb_refl.
Qed.

Lemma length_filter_pos {A : Type} (P : A -> bool) (x : A) (l : list A) :
  In x l -> P x = true -> 1 <= List.length (filter P l).
Proof.
  intros Hin HP.
  assert (H : In x (filter P l)) by (apply filter_In; now split).
  destruct (filter P l); [destruct H|simpl; lia].
Qed.

(** X21. What a successful create-producer event sends: first the
    broadcasts of all registered [newProducer] listeners, then
    producer-created to the issuer, then the broadcast of the handler. So
    the issuer is sent its own advertisement as soon as another connected
    socket's listener reaches it, and, when the issuer's listener is
    registered and the event names the room of the transport, every other
    member of the room is sent the advertisement at least twice. *)
Theorem create_producer_fan_out
    (e : Engine) (socket transportId kind : string) (rtp : Json) (roomId : string)
    (transportInfo : TransportInfo) (producerId : string) (s : Server) :
  JsMap.get transportId (transports (media s)) = Some transportInfo ->
  produce e = Ok producerId ->
  let s' := handle e socket (CreateProducer transportId kind rtp roomId) s in
  let fanned :=
    newProducer_deliveries (t_roomId transportInfo) (t_peerId transportInfo)
      producerId kind s ++
    [(socket, ProducerCreated producerId kind)] ++
    map (fun r => (r, NewProducerAvailable socket producerId kind))
      (recipients socket (video_room roomId) (adapter s)) in
  sent s' = sent s ++ fanned /\
  (forall other,
     In other (listeners (media s)) ->
     In socket (recipients other (video_room (t_roomId transportInfo)) (adapter s)) ->
     In (NewProducerAvailable (t_peerId transportInfo) producerId kind)
       (received socket fanned)) /\
  (forall q,
     In socket (listeners (media s)) ->
     roomId = t_roomId transportInfo ->
     In q (recipients socket (video_room roomId) (adapter s)) ->
     2 <= List.length (filter (advertises producerId) (received q fanned))).
Proof.
  intros E P s' fanned. subst s' fanned. unfold handle.
  rewrite (on_create_producer_accepted e socket transportId kind rtp roomId
             transportInfo producerId s E P).
  cbv zeta. rewrite sent_deliver, sent_on_media.
  split; [reflexivity|]. split.
  - intros other Hl Hr. rewrite received_app. apply in_or_app. left.
    apply In_received. unfold newProducer_deliveries. apply in_flat_map.
    exists other. split; [exact Hl|].
    apply (in_map (fun r => (r, NewProducerAvailable (t_peerId transportInfo)
                                  producerId kind)) _ socket Hr).
  - intros q Hl -> Hq.
    rewrite !received_app, !filter_app, !length_app.
    assert (H1 : 1 <= List.length
              (filter (advertises producerId)
                 (received q
                    (newProducer_deliveries (t_roomId transportInfo)
                       (t_peerId transportInfo) producerId kind s)))).
    { apply (length_filter_pos _
               (NewProducerAvailable (t_peerId transportInfo) producerId kind)).
      - apply In_received. unfold newProducer_deliveries. apply in_flat_map.
        exists socket. split; [exact Hl|].
        apply (in_map (fun r => (r, NewProducerAvailable (t_peerId transportInfo)
                                      producerId kind)) _ q Hq).
      - simpl. apply String.eqb_refl. }
    assert (H2 : 1 <= List.length
              (filter (advertises producerId)
                 (received q
                    (map (fun r => (r, NewProducerAvailable socket producerId kind))
                       (recipients socket (video_room (t_roomId transportInfo))
                          (adapter s)))))).
    { apply (length_filter_pos _ (NewProducerAvailable socket producerId kind)).
      - apply In_received.
        apply (in_map (fun r => (r, NewProducerAvailable socket producerId kind)) _ q Hq).
      - simpl. apply String.eqb_refl. }
    lia.
Qed.

Lemma create_producer_fan_out_witness :
  JsMap.get "t2" (transports (media p2_connected)) =
    Some (mkTransportInfo "t2" "p2" "A" "send") /\
  sent p2_produces =
    sent p2_connected ++
    newProducer_deliveries "A" "p2" "prod1" "video" p2_connected ++
    [("p2", ProducerCreated "prod1" "video")] ++
    map (fun r => (r, NewProducerAvailable "p2" "prod1" "video"))
      (recipients "p2" (video_room "A") (adapter p2_connected)).
Proof.
  split; [reflexivity|].
  exact (proj1 (create_producer_fan_out (engine_ok "r1" "" "prod1" "") "p2" "t2" "video"
                  "rtp" "A" (mkTransportInfo "t2" "p2" "A" "send") "prod1" p2_connected
                  eq_refl eq_refl)).
Defined.

(** ** Room membership *)

Lemma JsSet_has_add x y (members : JsSet.t) :
  JsSet.has x (JsSet.add y members) = (String.eqb x y || JsSet.has x members)%bool.
Proof.
  unfold JsSet.add. destruct (JsSet.has y members) eqn:Hy.
  - destruct (String.eqb_spec x y) as [->|]; [now rewrite Hy|reflexivity].
  - unfold JsSet.has. rewrite existsb_app. simpl.
    rewrite orb_false_r. apply orb_comm.
Qed.

(** A successful create-producer event on a transport whose room exists
    adds the owner of the transport to the member set of that room, keeping
    its router and the members it had. *)
Lemma create_producer_adds_owner
    (e : Engine) (socket transportId kind : string) (rtp : Json) (roomId : string)
    (transportInfo : TransportInfo) (producerId : string) (room : RoomInfo) (s : Server) :
  JsMap.get transportId (transports (media s)) = Some transportInfo ->
  produce e = Ok producerId ->
  JsMap.get (t_roomId transportInfo) (rooms (media s)) = Some room ->
  let s' := handle e socket (CreateProducer transportId kind rtp roomId) s in
  exists room',
    JsMap.get (t_roomId transportInfo) (rooms (media s')) = Some room' /\
    room_router room' = room_router room /\
    JsSet.has (t_peerId transportInfo) (room_peers room') = true /\
    forall x, JsSet.has x (room_peers room') =
              (String.eqb x (t_peerId transportInfo) || JsSet.has x (room_peers room))%bool.
Proof.
  intros E P R s'. subst s'. unfold handle.
  rewrite (on_create_producer_accepted e socket transportId kind rtp roomId
             transportInfo producerId s E P).
  cbv zeta. rewrite media_deliver, media_on_media.
  unfold room_add_peer. simpl. rewrite R. simpl.
  eexists. split; [apply get_set_eq|]. simpl.
  split; [reflexivity|]. split.
  - rewrite JsSet_has_add. now rewrite String.eqb_refl.
  - intros x. apply JsSet_has_add.
Qed.

Lemma JsSet_has_delete x y (members : JsSet.t) :
  JsSet.has x (JsSet.delete y members) = true -> JsSet.has x members = true.
Proof.
  unfold JsSet.has, JsSet.delete. rewrite !existsb_exists.
  intros (z & Hz & Hx). apply filter_In in Hz as [Hz _]. now exists z.
Qed.

(** A room record made by [getOrCreateRouter] has no member. *)
Lemma getOrCreateRouter_members e roomId0 s s' r roomId room' x :
  getOrCreateRouter e roomId0 s = (s', r) ->
  JsMap.get roomId (rooms (media s')) = Some room' ->
  JsSet.has x (room_peers room') = true ->
  JsMap.get roomId (rooms (media s)) = Some room'.
Proof.
  intros G Hg Hx.
  destruct (getOrCreateRouter_cases e roomId0 s)
    as [(router & _ & E)|[(_ & _ & E)|[(w & ws & msg & _ & _ & _ & E)|
        (w & ws & router & _ & _ & _ & E)]]];
    rewrite E in G; injection G as <- <-; try exact Hg.
  simpl in Hg. destruct (String.eqb_spec roomId0 roomId) as [->|Hne].
  - rewrite get_set_eq in Hg. injection Hg as <-. discriminate.
  - now rewrite get_set_neq in Hg.
Qed.

(** [leavePeer] brings nobody into a room. *)
Lemma leavePeer_members peerId roomId0 m roomId room' x :
  JsMap.get roomId (rooms (leavePeer peerId roomId0 m)) = Some room' ->
  JsSet.has x (room_peers room') = true ->
  exists room,
    JsMap.get roomId (rooms m) = Some room /\ JsSet.has x (room_peers room) = true.
Proof.
  unfold leavePeer.
  destruct (rooms_before_room_remove_peer peerId roomId0 m) as [Hrooms _].
  set (m3 := leave_consumers peerId roomId0
               (leave_producers peerId roomId0 (leave_transports peerId roomId0 m))) in *.
  unfold room_remove_peer. rewrite Hrooms.
  destruct (JsMap.get roomId0 (rooms m)) as [room|] eqn:E.
  - destruct (JsSet.size (JsSet.delete peerId (room_peers room)) =? 0)%nat; simpl;
      rewrite Hrooms; intros Hg Hx.
    + destruct (String.eqb_spec roomId0 roomId) as [->|Hne].
      * rewrite get_delete_eq in Hg. discriminate.
      * rewrite get_delete_neq in Hg by exact Hne.
        destruct (String.eqb_spec roomId0 roomId) as [->|_]; [contradiction|].
        rewrite get_set_neq in Hg by exact Hne. now exists room'.
    + destruct (String.eqb_spec roomId0 roomId) as [->|Hne].
      * rewrite get_set_eq in Hg. injection Hg as <-. simpl in Hx.
        exists room. split; [exact E|]. now apply JsSet_has_delete in Hx.
      * rewrite get_set_neq in Hg by exact Hne. now exists room'.
  - rewrite Hrooms. intros Hg Hx. now exists room'.
Qed.

(** X22. How a peer enters [room.peers]. A successful create-producer event
    on a transport whose room exists adds the owner of the transport to the
    member set of that room, keeping its router and the members it had; and
    this is the only way in: whatever the event, a member of a room after
    the event was a member of that room before it, or is the owner of the
    transport of a successful create-producer event, in the room of that
    transport. *)
Theorem peers_enter_rooms_by_create_producer_only
    (e : Engine) (socket : string) (ev : ClientEvent) (s : Server) :
  (forall tid kind rtp r ti pid room,
     ev = CreateProducer tid kind rtp r ->
     JsMap.get tid (transports (media s)) = Some ti ->
     produce e = Ok pid ->
     JsMap.get (t_roomId ti) (rooms (media s)) = Some room ->
     exists room',
       JsMap.get (t_roomId ti) (rooms (media (handle e socket ev s))) = Some room' /\
       room_router room' = room_router room /\
       JsSet.has (t_peerId ti) (room_peers room') = true /\
       forall x, JsSet.has x (room_peers room') =
                 (String.eqb x (t_peerId ti) || JsSet.has x (room_peers room))%bool) /\
  (forall roomId room' x,
     JsMap.get roomId (rooms (media (handle e socket ev s))) = Some room' ->
     JsSet.has x (room_peers room') = true ->
     (exists room,
        JsMap.get roomId (rooms (media s)) = Some room /\
        JsSet.has x (room_peers room) = true) \/
     (exists tid kind rtp r ti pid,
        ev = CreateProducer tid kind rtp r /\
        JsMap.get tid (transports (media s)) = Some ti /\
        produce e = Ok pid /\ roomId = t_roomId ti /\ x = t_peerId ti)).
Proof.
  split.
  - intros tid kind rtp r ti pid room -> Et P R.
    exact (create_producer_adds_owner e socket tid kind rtp r ti pid room s Et P R).
  - intros roomId room' x.
    destruct ev as [|roomId0|roomId0|roomId0 direction|tid dtls|tid kind rtp roomId0
                    |tid pid caps|cid|cid|pid roomId0|]; unfold handle.
    + intros Hg Hx. left. now exists room'.
    + rewrite on_join_video_room_eq.
      destruct (getOrCreateRouter e roomId0
                  (on_adapter (adapter_join socket (video_room roomId0)) s))
        as [s2 [router|message]] eqn:G; intros Hg Hx; left; exists room';
        (split; [|exact Hx]);
        exact (getOrCreateRouter_members _ _ _ _ _ _ _ _ G Hg Hx).
    + rewrite on_leave_video_room_eq. intros Hg Hx. left.
      exact (leavePeer_members _ _ _ _ _ _ Hg Hx).
    + rewrite on_create_transport_eq.
      destruct (getOrCreateRouter e roomId0 s) as [s1 [router|message]] eqn:G.
      * cbv zeta. destruct (createWebRtcTransport_ e); intros Hg Hx; left;
          exists room'; (split; [|exact Hx]);
          exact (getOrCreateRouter_members _ _ _ _ _ _ _ _ G Hg Hx).
      * intros Hg Hx. left. exists room'. split; [|exact Hx].
        exact (getOrCreateRouter_members _ _ _ _ _ _ _ _ G Hg Hx).
    + destruct (JsMap.get tid (transports (media s))) as [ti|] eqn:E.
      * rewrite (on_connect_transport_found e _ tid dtls ti s E).
        intros Hg Hx. left. now exists room'.
      * rewrite (on_connect_transport_missing e _ tid dtls s E).
        intros Hg Hx. left. now exists room'.
    + destruct (JsMap.get tid (transports (media s))) as [ti|] eqn:E.
      * destruct (produce e) as [pid|message] eqn:P.
        -- rewrite (on_create_producer_accepted e _ tid kind rtp roomId0 ti pid s E P).
           cbv zeta. rewrite media_deliver, media_on_media.
           unfold room_add_peer. simpl.
           destruct (JsMap.get (t_roomId ti) (rooms (media s))) as [room|] eqn:R.
           ++ simpl. intros Hg Hx.
              destruct (String.eqb_spec (t_roomId ti) roomId) as [Heq|Hne].
              ** rewrite <- Heq in Hg. rewrite get_set_eq in Hg. injection Hg as <-.
                 simpl in Hx. rewrite JsSet_has_add in Hx.
                 apply orb_true_iff in Hx as [Hx|Hx].
                 --- right. apply String.eqb_eq in Hx.
                     exists tid, kind, rtp, roomId0, ti, pid. now repeat split.
                 --- left. exists room. rewrite <- Heq. now split.
              ** rewrite get_set_neq in Hg by exact Hne. left. now exists room'.
           ++ intros Hg Hx. left. now exists room'.
        -- rewrite (on_create_producer_rejected e _ tid kind rtp roomId0 ti message s E P).
           intros Hg Hx. left. now exists room'.
      * rewrite (on_create_producer_missing e _ tid kind rtp roomId0 s E).
        intros Hg Hx. left. now exists room'.
    + rewrite on_create_consumer_eq.
      destruct (JsMap.get tid (transports (media s))) as [ti|];
        [|intros Hg Hx; left; now exists room'].
      destruct (JsMap.get pid (producers (media s)));
        [|intros Hg Hx; left; now exists room'].
      destruct (getOrCreateRouter e (t_roomId ti) s) as [s1 [router|message]] eqn:G.
      * cbv zeta. destruct (canConsume e); [destruct (consume e)|];
          intros Hg Hx; left; exists room'; (split; [|exact Hx]);
          exact (getOrCreateRouter_members _ _ _ _ _ _ _ _ G Hg Hx).
      * intros Hg Hx. left. exists room'. split; [|exact Hx].
        exact (getOrCreateRouter_members _ _ _ _ _ _ _ _ G Hg Hx).
    + rewrite on_resume_consumer_eq.
      destruct (JsMap.get cid (consumers (media s)));
        intros Hg Hx; left; now exists room'.
    + rewrite on_pause_consumer_eq.
      destruct (JsMap.get cid (consumers (media s)));
        intros Hg Hx; left; now exists room'.
    + rewrite on_close_producer_eq, media_emit, media_to_emit, media_on_media.
      destruct (closeProducer_frame pid (media s)) as (_ & _ & _ & _ & -> & _).
      intros Hg Hx. left. now exists room'.
    + unfold on_disconnect. cbv zeta. intros Hg Hx. left.
      revert roomId room' x Hg Hx.
      apply (disconnect_cleanup_media_invariant
               (fun m => forall roomId room' x,
                  JsMap.get roomId (rooms m) = Some room' ->
                  JsSet.has x (room_peers room') = true ->
                  exists room,
                    JsMap.get roomId (rooms (media s)) = Some room /\
                    JsSet.has x (room_peers room) = true)).
      * intros r m Hm roomId room' x Hg Hx.
        destruct (leavePeer_members _ _ _ _ _ _ Hg Hx) as (room & Hg' & Hx').
        exact (Hm roomId room x Hg' Hx').
      * intros roomId room' x Hg Hx. now exists room'.
Qed.

Lemma peers_enter_rooms_by_create_producer_only_witness :
  JsMap.get "A" (rooms (media p2_connected)) =
    Some (mkRoomInfo "A" (mkRouter "r1" "caps") [] 0) /\
  exists room',
    JsMap.get "A" (rooms (media p2_produces)) = Some room' /\
    room_router room' = mkRouter "r1" "caps" /\
    JsSet.has "p2" (room_peers room') = true.
Proof.
  split; [reflexivity|].
  destruct (proj1 (peers_enter_rooms_by_create_producer_only
                     (engine_ok "r1" "" "prod1" "") "p2"
                     (CreateProducer "t2" "video" "rtp" "A") p2_connected)
              "t2" "video" "rtp" "A" (mkTransportInfo "t2" "p2" "A" "send") "prod1"
              (mkRoomInfo "A" (mkRouter "r1" "caps") [] 0)
              eq_refl eq_refl eq_refl eq_refl) as (room' & H1 & H2 & H3 & _).
  exists room'. exact (conj H1 (conj H2 H3)).
Defined.

(** ** connect-transport on an unknown transport *)

(** X23. A connect-transport event naming a transport id that is not in the
    table is answered by one transport-error with error "Failed to connect
    transport"; the engine is not called and nothing changes. *)
Theorem connect_unknown_transport
    (e : Engine) (socket transportId : string) (dtls : Json) (s : Server) :
  JsMap.get transportId (transports (media s)) = None ->
  let s' := handle e socket (ConnectTransport transportId dtls) s in
  media s' = media s /\ adapter s' = adapter s /\
  sent s' =
    sent s ++
    [(socket,
      TransportError "Failed to connect transport"
        ("Transport " ++ transportId ++ " not found")%string)].
Proof.
  intros E s'. subst s'. unfold handle.
  rewrite (on_connect_transport_missing e socket transportId dtls s E).
  now repeat split.
Qed.

Lemma connect_unknown_transport_witness :
  JsMap.get "ghost" (transports (media two_joined)) = None /\
  sent (handle (engine_ok "r1" "" "" "") "p1" (ConnectTransport "ghost" "dtls") two_joined) =
    sent two_joined ++
    [("p1", TransportError "Failed to connect transport" "Transport ghost not found")].
Proof.
  split; [reflexivity|].
  exact (proj2 (proj2 (connect_unknown_transport (engine_ok "r1" "" "" "") "p1" "ghost"
                         "dtls" two_joined eq_refl))).
Defined.

(** ** What the disconnect handler finds *)

Lemma JsSet_has_delete_self sid (members : JsSet.t) :
  JsSet.has sid (JsSet.delete sid members) = false.
Proof.
  apply not_true_is_false. unfold JsSet.has, JsSet.delete.
  rewrite existsb_exists. intros (x & Hx & Hex).
  apply filter_In in Hx as [_ Hx]. rewrite Hex in Hx. discriminate.
Qed.

(** Once Socket.IO has taken a socket out of every room, [socket.rooms] is
    empty. *)
Lemma socket_rooms_after_leave_all sid (a : Adapter) :
  socket_rooms sid (adapter_leave_all sid a) = [].
Proof.
  unfold socket_rooms, adapter_leave_all.
  induction a as [|[room members] a IH]; simpl; [reflexivity|].
  rewrite filter_app, map_app, IH, app_nil_r.
  destruct (JsSet.has sid members) eqn:H; simpl.
  - destruct (JsSet.size (JsSet.delete sid members) =? 0)%nat; simpl; [reflexivity|].
    now rewrite JsSet_has_delete_self.
  - now rewrite H.
Qed.

(** X24. The disconnect handler cleans nothing up. When the event fires the
    socket has left all its rooms, so the handler finds no video room in
    [socket.rooms]: [leavePeer] is not called, the transports, producers
    and consumers of the peer stay in the tables, and no peer-left (nor
    anything else) is sent. *)
Theorem disconnect_handler_finds_no_room (e : Engine) (socket : string) (s : Server) :
  media (handle e socket Disconnect s) = media s /\
  sent (handle e socket Disconnect s) = sent s /\
  adapter (handle e socket Disconnect s) = adapter_leave_all socket (adapter s) /\
  socket_rooms socket (adapter (handle e socket Disconnect s)) = [].
Proof.
  unfold handle, on_disconnect. cbv zeta.
  assert (H : socket_rooms socket (adapter (on_adapter (adapter_leave_all socket) s)) = [])
    by apply socket_rooms_after_leave_all.
  rewrite H. unfold disconnect_cleanup, video_rooms_of. simpl.
  repeat split. apply socket_rooms_after_leave_all.
Qed.
